(** * DeltaOne ROI calculator: the calculation engine and its self-tests

    Source: [src/delta_one_roi_calculator_petg_react.jsx].

    The engine [computeROI] and the self-test helper [approxEqual] are written
    once, over an interface [Arith] of the arithmetic a JavaScript [number]
    offers them ([*], [/], [+], [-], [Math.abs], [<=], decimal literals).
    The program runs on one instance, [float_Arith]: IEEE 754 binary64 with
    round-to-nearest-even (primitive floats, specified by [SpecFloat]).
    Every property of the engine below is stated and proved on it.

    A second instance, [Qc_Arith], reads the same formulas over the exact
    rationals.  It is not the arithmetic of the program and nothing about
    the program is concluded from it; the lemmas named [_exact] stand beside
    the binary64 theorems to show what rounding, overflow and NaN change.

    Around the engine, the page itself: the [useState] cells of
    [DeltaOneROICalculator] with their handlers ([handle], [resetToDefaults],
    [Segmented]) as a state machine over user events, and the PDF export
    ([handleExportPDF], [row], [splitText]) as the trace of calls it makes on
    the document.  What the browser and the libraries supply (string
    conversions, number formats, line breaking) is the interface
    [Platform].  *)

From Stdlib Require Import ZArith QArith Qcanon Qcabs Floats.
From Stdlib Require Import Lia List Sorted String Bool.
Import ListNotations.

Set Warnings "-inexact-float".
Close Scope Qc_scope.
Close Scope Q_scope.

(** ** The arithmetic of a JavaScript [number] *)

Declare Scope num_scope.
Delimit Scope num_scope with num.

Class Arith (num : Type) : Type := {
  lit : Q -> num;            (* a decimal literal of the source text *)
  mul : num -> num -> num;   (* a * b *)
  div : num -> num -> num;   (* a / b *)
  add : num -> num -> num;   (* a + b *)
  sub : num -> num -> num;   (* a - b *)
  abs : num -> num;          (* Math.abs(a) *)
  leb : num -> num -> bool;  (* a <= b *)
  eqb : num -> num -> bool   (* a === b *)
}.

Infix "*" := mul : num_scope.
Infix "/" := div : num_scope.
Infix "+" := add : num_scope.
Infix "-" := sub : num_scope.
Infix "<=?" := leb : num_scope.
Infix "=?" := eqb : num_scope.

(** *** binary64 *)

(** An integer below 2^53 in absolute value is a binary64 number. *)
Definition float_of_Z (z : Z) : float :=
  match z with
  | Z0 => PrimFloat.zero
  | Zpos _ => PrimFloat.of_uint63 (Uint63.of_Z z)
  | Zneg _ => PrimFloat.opp (PrimFloat.of_uint63 (Uint63.of_Z (Z.opp z)))
  end.

(** A decimal literal [n / 10^k] denotes the binary64 number nearest to it.
    Division is correctly rounded, so dividing the two integers (both exact
    when below 2^53) yields that number. *)
Definition float_lit (q : Q) : float :=
  PrimFloat.div (float_of_Z (Qnum q)) (float_of_Z (Zpos (Qden q))).

#[export] Instance float_Arith : Arith float := {
  lit := float_lit;
  mul := PrimFloat.mul;
  div := PrimFloat.div;
  add := PrimFloat.add;
  sub := PrimFloat.sub;
  abs := PrimFloat.abs;
  leb := PrimFloat.leb;
  eqb := PrimFloat.eqb
}.

(** *** Exact rationals

    The formulas without rounding.  A JavaScript [number] is not a rational:
    this instance has no NaN, no infinity, no signed zero and no rounding,
    and a statement proved on it alone says nothing of the program. *)

#[export] Instance Qc_Arith : Arith Qc := {
  lit := Q2Qc;
  mul := Qcmult;
  div := Qcdiv;
  add := Qcplus;
  sub := Qcminus;
  abs := Qcabs;
  leb := fun a b => Qle_bool a b;
  eqb := Qc_eq_bool
}.

(** ** Types *)

Set Implicit Arguments.

Record ROIParams (num : Type) : Type := {
  webWidth : num;             (* m *)
  jobsPerShift : num;
  shiftsPerDay : num;
  daysPerYear : num;
  stopsPerJobBaseline : num;
  reductionPercent : num;     (* % *)
  wastePerStopM : num;        (* m *)
  speedMPerMin : num;         (* m/min *)
  uptimePercent : num;        (* % *)
  hoursPerShift : num;        (* h *)
  substratePrice : num;       (* EUR/m2 *)
  haasPrice : num             (* EUR/year *)
}.

Record ROIResult (num : Type) : Type := {
  jobsPerDay : num;
  jobsPerYear : num;
  m2PerStop : num;
  m2CalagePerYear : num;
  printedLengthPerYear : num; (* m *)
  m2ThreeMmPerYear : num;
  euroCalage : num;
  euroThreeMm : num;
  euroTotal : num;
  euroNet : num
}.

Unset Implicit Arguments.

(** ** Pure calculation *)

Section Engine.
Context {num : Type} `{Arith num}.
Local Open Scope num_scope.

(** The three local constants of [computeROI] that are not returned. *)

Definition stopsAvoidedPerJob (p : ROIParams num) : num :=
  (p.(stopsPerJobBaseline) * p.(reductionPercent)) / lit 100.

Definition minutesPerDay (p : ROIParams num) : num :=
  p.(hoursPerShift) * lit 60 * p.(shiftsPerDay).

Definition printedLengthPerDay (p : ROIParams num) : num :=
  p.(speedMPerMin) * (p.(uptimePercent) / lit 100) * minutesPerDay p.

Definition computeROI (p : ROIParams num) : ROIResult num :=
  let jobsPerDay' := p.(jobsPerShift) * p.(shiftsPerDay) in
  let jobsPerYear' := jobsPerDay' * p.(daysPerYear) in

  let stopsAvoidedPerJob' := stopsAvoidedPerJob p in
  let m2PerStop' := p.(webWidth) * p.(wastePerStopM) in
  let m2CalagePerYear' := m2PerStop' * stopsAvoidedPerJob' * jobsPerYear' in

  let printedLengthPerDay' := printedLengthPerDay p in
  let printedLengthPerYear' := printedLengthPerDay' * p.(daysPerYear) in
  let m2ThreeMmPerYear' := lit 0.003 * printedLengthPerYear' in

  let euroCalage' := m2CalagePerYear' * p.(substratePrice) in
  let euroThreeMm' := m2ThreeMmPerYear' * p.(substratePrice) in
  let euroTotal' := euroCalage' + euroThreeMm' in
  let euroNet' := euroTotal' - p.(haasPrice) in

  {| jobsPerDay := jobsPerDay';
     jobsPerYear := jobsPerYear';
     m2PerStop := m2PerStop';
     m2CalagePerYear := m2CalagePerYear';
     printedLengthPerYear := printedLengthPerYear';
     m2ThreeMmPerYear := m2ThreeMmPerYear';
     euroCalage := euroCalage';
     euroThreeMm := euroThreeMm';
     euroTotal := euroTotal';
     euroNet := euroNet' |}.

(** The own properties of the two objects, in the order of the object
    literals that build them ([Object.entries]). *)

Definition ROIParams_entries (p : ROIParams num) : list (string * num) :=
  [ ("webWidth", p.(webWidth));
    ("jobsPerShift", p.(jobsPerShift));
    ("shiftsPerDay", p.(shiftsPerDay));
    ("daysPerYear", p.(daysPerYear));
    ("stopsPerJobBaseline", p.(stopsPerJobBaseline));
    ("reductionPercent", p.(reductionPercent));
    ("wastePerStopM", p.(wastePerStopM));
    ("speedMPerMin", p.(speedMPerMin));
    ("uptimePercent", p.(uptimePercent));
    ("hoursPerShift", p.(hoursPerShift));
    ("substratePrice", p.(substratePrice));
    ("haasPrice", p.(haasPrice)) ]%string.

Definition ROIResult_entries (r : ROIResult num) : list (string * num) :=
  [ ("jobsPerDay", r.(jobsPerDay));
    ("jobsPerYear", r.(jobsPerYear));
    ("m2PerStop", r.(m2PerStop));
    ("m2CalagePerYear", r.(m2CalagePerYear));
    ("printedLengthPerYear", r.(printedLengthPerYear));
    ("m2ThreeMmPerYear", r.(m2ThreeMmPerYear));
    ("euroCalage", r.(euroCalage));
    ("euroThreeMm", r.(euroThreeMm));
    ("euroTotal", r.(euroTotal));
    ("euroNet", r.(euroNet)) ]%string.

(** ** Test panel *)

Definition approxEqual (actual expected tolerancePct : num) : bool :=
  let tol := abs expected * tolerancePct in
  abs (actual - expected) <=? tol.

(** [tolerancePct = 0.001] when the argument is omitted. *)
Definition approxEqual_default (actual expected : num) : bool :=
  approxEqual actual expected (lit 0.001).

Definition baselineParams : ROIParams num :=
  {| webWidth := lit 0.33;
     jobsPerShift := lit 6;
     shiftsPerDay := lit 2;
     daysPerYear := lit 250;
     stopsPerJobBaseline := lit 6;
     reductionPercent := lit 50;
     wastePerStopM := lit 100;
     speedMPerMin := lit 165;
     uptimePercent := lit 60;
     hoursPerShift := lit 8;
     substratePrice := lit 0.6;
     haasPrice := lit 20000 |}.

(** The object [expected] of [TestPanel]: two literal formulas. *)
Definition expected_m2CalagePerYear : num :=
  lit 0.33 * lit 100 * (lit 6 * lit 0.5) * (lit 6 * lit 2 * lit 250).

Definition expected_m2ThreeMmPerYear : num :=
  lit 0.003 * (lit 165 * lit 0.6 * (lit 8 * lit 60 * lit 2) * lit 250).

(** The array [tests] of [TestPanel], for the engine result [b]. *)
Definition TestPanel_checks (b : ROIResult num) : list (string * bool) :=
  [ ("Calage m²/year"%string,
     approxEqual_default b.(m2CalagePerYear) expected_m2CalagePerYear);
    ("−3 mm m²/year"%string,
     approxEqual_default b.(m2ThreeMmPerYear) expected_m2ThreeMmPerYear) ].

(** [TestPanel] up to its markup, the engine it calls being a parameter:
    one call, on [baselineParams], whose result the checks read. *)
Definition TestPanel_with (engine : ROIParams num -> ROIResult num)
  : list (string * bool) :=
  let b := engine baselineParams in
  TestPanel_checks b.

(** [TestPanel] as the page has it, calling [computeROI]. *)
Definition TestPanel_tests : list (string * bool) :=
  TestPanel_with computeROI.

End Engine.

(** ** The text of [computeROI] *)

(** The function as a piece of program text, to tell what it reads and
    writes.  The language is that of the body (literals, identifiers, member
    reads, the four operators, [const] declarations, a returned object
    literal) and one statement the body does not use, the assignment; an
    identifier is looked up in the function's own constants first and in the
    enclosing scope after, as in JavaScript. *)
Inductive Expr : Type :=
| ENum (q : Q)                       (* a literal *)
| EVar (x : string)                  (* x *)
| EMember (obj field : string)       (* obj.field *)
| EMul (a b : Expr)                  (* a * b *)
| EDiv (a b : Expr)                  (* a / b *)
| EAdd (a b : Expr)                  (* a + b *)
| ESub (a b : Expr).                 (* a - b *)

Inductive Stmt : Type :=
| SConst (x : string) (e : Expr)     (* const x = e; *)
| SAssign (x : string) (e : Expr).   (* x = e; *)

Record FunctionText : Type := {
  f_param : string;                  (* the one parameter *)
  f_body : list Stmt;
  f_return : list string             (* return { a, b, ... }; *)
}.

Definition computeROI_text : FunctionText :=
  {| f_param := "p";
     f_body :=
       [ SConst "jobsPerDay"
           (EMul (EMember "p" "jobsPerShift") (EMember "p" "shiftsPerDay"));
         SConst "jobsPerYear"
           (EMul (EVar "jobsPerDay") (EMember "p" "daysPerYear"));
         SConst "stopsAvoidedPerJob"
           (EDiv (EMul (EMember "p" "stopsPerJobBaseline")
                       (EMember "p" "reductionPercent"))
                 (ENum 100));
         SConst "m2PerStop"
           (EMul (EMember "p" "webWidth") (EMember "p" "wastePerStopM"));
         SConst "m2CalagePerYear"
           (EMul (EMul (EVar "m2PerStop") (EVar "stopsAvoidedPerJob"))
                 (EVar "jobsPerYear"));
         SConst "minutesPerDay"
           (EMul (EMul (EMember "p" "hoursPerShift") (ENum 60))
                 (EMember "p" "shiftsPerDay"));
         SConst "printedLengthPerDay"
           (EMul (EMul (EMember "p" "speedMPerMin")
                       (EDiv (EMember "p" "uptimePercent") (ENum 100)))
                 (EVar "minutesPerDay"));
         SConst "printedLengthPerYear"
           (EMul (EVar "printedLengthPerDay") (EMember "p" "daysPerYear"));
         SConst "m2ThreeMmPerYear"
           (EMul (ENum 0.003) (EVar "printedLengthPerYear"));
         SConst "euroCalage"
           (EMul (EVar "m2CalagePerYear") (EMember "p" "substratePrice"));
         SConst "euroThreeMm"
           (EMul (EVar "m2ThreeMmPerYear") (EMember "p" "substratePrice"));
         SConst "euroTotal" (EAdd (EVar "euroCalage") (EVar "euroThreeMm"));
         SConst "euroNet" (ESub (EVar "euroTotal") (EMember "p" "haasPrice"))
       ]%string;
     f_return :=
       [ "jobsPerDay"; "jobsPerYear"; "m2PerStop"; "m2CalagePerYear";
         "printedLengthPerYear"; "m2ThreeMmPerYear"; "euroCalage";
         "euroThreeMm"; "euroTotal"; "euroNet" ]%string |}.

Section Evaluation.
Context {num : Type} {A : Arith num}.

(** Variables and their numbers, the most recent binding first. *)
Definition Scope : Type := list (string * num).

Fixpoint lookup (x : string) (sc : Scope) : option num :=
  match sc with
  | [] => None
  | (y, v) :: rest => if String.eqb x y then Some v else lookup x rest
  end.

Fixpoint update (x : string) (v : num) (sc : Scope) : Scope :=
  match sc with
  | [] => [(x, v)]
  | (y, w) :: rest =>
      if String.eqb x y then (y, v) :: rest else (y, w) :: update x v rest
  end.

(** [outer]: the variables of the enclosing scopes, that is, whatever state
    outlives a call; [locals]: the constants declared so far; [arg]: the
    object passed for the parameter.  [None] is a run-time error. *)
Definition readVar (outer locals : Scope) (x : string) : option num :=
  match lookup x locals with
  | Some v => Some v
  | None => lookup x outer
  end.

Fixpoint evalExpr (f : FunctionText) (outer locals arg : Scope) (e : Expr)
  : option num :=
  let binary op a b :=
    match evalExpr f outer locals arg a, evalExpr f outer locals arg b with
    | Some x, Some y => Some (op x y)
    | _, _ => None
    end in
  match e with
  | ENum q => Some (lit q)
  | EVar x => readVar outer locals x
  | EMember obj field =>
      if String.eqb obj f.(f_param) then lookup field arg else None
  | EMul a b => binary mul a b
  | EDiv a b => binary div a b
  | EAdd a b => binary add a b
  | ESub a b => binary sub a b
  end.

(** The statements, in order: the scopes after them. *)
Fixpoint execBody (f : FunctionText) (outer locals arg : Scope)
    (body : list Stmt) : option (Scope * Scope) :=
  match body with
  | [] => Some (outer, locals)
  | SConst x e :: rest =>
      match evalExpr f outer locals arg e with
      | Some v => execBody f outer ((x, v) :: locals) arg rest
      | None => None
      end
  | SAssign x e :: rest =>
      match evalExpr f outer locals arg e, lookup x locals with
      | Some v, None => execBody f (update x v outer) locals arg rest
      | _, _ => None              (* an error, or a constant assigned to *)
      end
  end.

Fixpoint returnObject (outer locals : Scope) (names : list string)
  : option Scope :=
  match names with
  | [] => Some []
  | x :: rest =>
      match readVar outer locals x, returnObject outer locals rest with
      | Some v, Some o => Some ((x, v) :: o)
      | _, _ => None
      end
  end.

(** One call: the object returned and the enclosing scope as the call
    leaves it. *)
Definition callFunction (f : FunctionText) (outer arg : Scope)
  : option (Scope * Scope) :=
  match execBody f outer [] arg f.(f_body) with
  | Some (outer', locals) =>
      match returnObject outer' locals f.(f_return) with
      | Some o => Some (o, outer')
      | None => None
      end
  | None => None
  end.

End Evaluation.

(** ** Vocabulary for the statements *)

Section Vocabulary.
Context {num : Type} `{Arith num}.
Local Open Scope num_scope.

(** Every input the results depend on is [>= 0]; [haasPrice], which only
    [euroNet] reads, is left free. *)
Definition nonNegativeInputs (p : ROIParams num) : bool :=
  (lit 0 <=? p.(webWidth)) && (lit 0 <=? p.(jobsPerShift)) &&
  (lit 0 <=? p.(shiftsPerDay)) && (lit 0 <=? p.(daysPerYear)) &&
  (lit 0 <=? p.(stopsPerJobBaseline)) && (lit 0 <=? p.(reductionPercent)) &&
  (lit 0 <=? p.(wastePerStopM)) && (lit 0 <=? p.(speedMPerMin)) &&
  (lit 0 <=? p.(uptimePercent)) && (lit 0 <=? p.(hoursPerShift)) &&
  (lit 0 <=? p.(substratePrice)).

(** The fields of a result other than [euroNet]. *)
Definition nonNetFields (r : ROIResult num) : list num :=
  [ r.(jobsPerDay); r.(jobsPerYear); r.(m2PerStop); r.(m2CalagePerYear);
    r.(printedLengthPerYear); r.(m2ThreeMmPerYear); r.(euroCalage);
    r.(euroThreeMm); r.(euroTotal) ].

(** [{ ...p, webWidth: w }] and its like: one input replaced, the other
    eleven kept. *)
Definition with_webWidth (w : num) (p : ROIParams num) : ROIParams num :=
  {| webWidth := w;
     jobsPerShift := p.(jobsPerShift); shiftsPerDay := p.(shiftsPerDay);
     daysPerYear := p.(daysPerYear);
     stopsPerJobBaseline := p.(stopsPerJobBaseline);
     reductionPercent := p.(reductionPercent);
     wastePerStopM := p.(wastePerStopM); speedMPerMin := p.(speedMPerMin);
     uptimePercent := p.(uptimePercent); hoursPerShift := p.(hoursPerShift);
     substratePrice := p.(substratePrice); haasPrice := p.(haasPrice) |}.

Definition with_wastePerStopM (w : num) (p : ROIParams num) : ROIParams num :=
  {| webWidth := p.(webWidth);
     jobsPerShift := p.(jobsPerShift); shiftsPerDay := p.(shiftsPerDay);
     daysPerYear := p.(daysPerYear);
     stopsPerJobBaseline := p.(stopsPerJobBaseline);
     reductionPercent := p.(reductionPercent);
     wastePerStopM := w; speedMPerMin := p.(speedMPerMin);
     uptimePercent := p.(uptimePercent); hoursPerShift := p.(hoursPerShift);
     substratePrice := p.(substratePrice); haasPrice := p.(haasPrice) |}.

Definition with_substratePrice (x : num) (p : ROIParams num) : ROIParams num :=
  {| webWidth := p.(webWidth);
     jobsPerShift := p.(jobsPerShift); shiftsPerDay := p.(shiftsPerDay);
     daysPerYear := p.(daysPerYear);
     stopsPerJobBaseline := p.(stopsPerJobBaseline);
     reductionPercent := p.(reductionPercent);
     wastePerStopM := p.(wastePerStopM); speedMPerMin := p.(speedMPerMin);
     uptimePercent := p.(uptimePercent); hoursPerShift := p.(hoursPerShift);
     substratePrice := x; haasPrice := p.(haasPrice) |}.

Definition with_reductionPercent (x : num) (p : ROIParams num) :
  ROIParams num :=
  {| webWidth := p.(webWidth);
     jobsPerShift := p.(jobsPerShift); shiftsPerDay := p.(shiftsPerDay);
     daysPerYear := p.(daysPerYear);
     stopsPerJobBaseline := p.(stopsPerJobBaseline);
     reductionPercent := x;
     wastePerStopM := p.(wastePerStopM); speedMPerMin := p.(speedMPerMin);
     uptimePercent := p.(uptimePercent); hoursPerShift := p.(hoursPerShift);
     substratePrice := p.(substratePrice); haasPrice := p.(haasPrice) |}.

Definition with_daysPerYear (x : num) (p : ROIParams num) : ROIParams num :=
  {| webWidth := p.(webWidth);
     jobsPerShift := p.(jobsPerShift); shiftsPerDay := p.(shiftsPerDay);
     daysPerYear := x;
     stopsPerJobBaseline := p.(stopsPerJobBaseline);
     reductionPercent := p.(reductionPercent);
     wastePerStopM := p.(wastePerStopM); speedMPerMin := p.(speedMPerMin);
     uptimePercent := p.(uptimePercent); hoursPerShift := p.(hoursPerShift);
     substratePrice := p.(substratePrice); haasPrice := p.(haasPrice) |}.

Definition with_speedMPerMin (x : num) (p : ROIParams num) : ROIParams num :=
  {| webWidth := p.(webWidth);
     jobsPerShift := p.(jobsPerShift); shiftsPerDay := p.(shiftsPerDay);
     daysPerYear := p.(daysPerYear);
     stopsPerJobBaseline := p.(stopsPerJobBaseline);
     reductionPercent := p.(reductionPercent);
     wastePerStopM := p.(wastePerStopM); speedMPerMin := x;
     uptimePercent := p.(uptimePercent); hoursPerShift := p.(hoursPerShift);
     substratePrice := p.(substratePrice); haasPrice := p.(haasPrice) |}.

Definition with_haasPrice (x : num) (p : ROIParams num) : ROIParams num :=
  {| webWidth := p.(webWidth);
     jobsPerShift := p.(jobsPerShift); shiftsPerDay := p.(shiftsPerDay);
     daysPerYear := p.(daysPerYear);
     stopsPerJobBaseline := p.(stopsPerJobBaseline);
     reductionPercent := p.(reductionPercent);
     wastePerStopM := p.(wastePerStopM); speedMPerMin := p.(speedMPerMin);
     uptimePercent := p.(uptimePercent); hoursPerShift := p.(hoursPerShift);
     substratePrice := p.(substratePrice); haasPrice := x |}.

End Vocabulary.

(** ** binary64: classification of values *)

Module B64.

(** [Number.isFinite]: neither an infinity nor NaN. *)
Definition isFinite (x : float) : bool :=
  match Prim2SF x with
  | S754_zero _ | S754_finite _ _ _ => true
  | S754_infinity _ | S754_nan => false
  end.

(** [x === 0], true of both zeros. *)
Definition isZero (x : float) : bool := PrimFloat.eqb x PrimFloat.zero.

(** [x !== x] characterises NaN. *)
Definition isNaN (x : float) : bool := negb (PrimFloat.eqb x x).

(** Not below zero: a zero, a positive number, plus infinity, or NaN. *)
Definition SFnotneg (x : spec_float) : bool :=
  match x with
  | S754_infinity s | S754_finite s _ _ => negb s
  | S754_zero _ | S754_nan => true
  end.

Definition SFzero (x : spec_float) : bool :=
  match x with S754_zero _ => true | _ => false end.

Definition SFfin (x : spec_float) : bool :=
  match x with S754_zero _ | S754_finite _ _ _ => true | _ => false end.

End B64.

Definition NotNeg (x : float) : Prop := B64.SFnotneg (Prim2SF x) = true.

(** ** Two out-of-range lines *)

(** A line whose material waste per stop is out of range: the area per stop
    overflows binary64. *)
Definition overflowingStop : ROIParams float :=
  with_webWidth 10%float
    (with_wastePerStopM 1e308%float
       (with_reductionPercent 0%float baselineParams)).

(** A line whose speed is out of range: the printed length per day
    overflows binary64. *)
Definition overflowingSpeed : ROIParams float :=
  with_speedMPerMin 1e308%float (with_daysPerYear 0%float baselineParams).

(** ** More of binary64 *)

(** [x === Infinity || x === -Infinity]. *)
Definition isInfinite (x : float) : bool :=
  match Prim2SF x with S754_infinity _ => true | _ => false end.

(** *** Powers of two

    A binary64 number is a sign, a 53-bit significand and an exponent.
    Vocabulary for the scaling of [computeROI] by a power of two. *)

(** The exponent of the last bit of the significand ([0] when [x] is not a
    non-zero finite number). *)
Definition exponentOf (x : float) : Z :=
  match Prim2SF x with S754_finite _ _ e => e | _ => 0%Z end.

(** A normal number: finite, not zero, with all 53 bits of significand. *)
Definition isNormal (x : float) : bool :=
  match Prim2SF x with
  | S754_finite _ m _ => Pos.eqb (digits2_pos m) 53
  | _ => false
  end.

(** [k] is [2^n] or [-2^n]. *)
Definition isPowerOfTwo (k : float) (n : Z) : bool :=
  match Prim2SF k with
  | S754_finite _ m e => Pos.eqb m 4503599627370496 && Z.eqb e (n - 52)
  | _ => false
  end.

(** [x] and [2^n * x] are normal numbers of magnitude at least [2^-485]:
    far enough from underflow for a product of two such numbers to be
    normal, and below overflow. *)
Definition scalable (n : Z) (x : float) : bool :=
  isNormal x
  && Z.leb (-537) (exponentOf x) && Z.leb (exponentOf x) 971
  && Z.leb (-537) (exponentOf x + n) && Z.leb (exponentOf x + n) 971.

(** ** The calculator shell: state and handlers *)

(** What the platform supplies: string conversions of the browser and of
    [Intl.NumberFormat], and the line breaking of the PDF library.  The
    shell is written against them and nothing is assumed about their
    values. *)
Class Platform (num : Type) : Type := {
  parseInt10 : string -> num;             (* parseInt(s, 10) *)
  parseFloat : string -> num;             (* parseFloat(s) *)
  roundTo2 : num -> num;                  (* Number(x.toFixed(2)) *)
  toFixed2 : num -> string;               (* x.toFixed(2) *)
  toText : num -> string;                 (* `${x}` *)
  money0_format : num -> string;          (* money0.format(x) *)
  splitTextToSize : string -> Z -> list string
}.

(** [Math.round]. *)
Class Rounding (num : Type) : Type := { Math_round : num -> num }.

Inductive Substrate : Type := PETG | PVC | OPS | BOPP.


(** The three price chips under the price field. *)
Inductive PriceChip : Type := Chip050 | Chip060 | Chip070.

Set Implicit Arguments.

(** The [useState] cells of [DeltaOneROICalculator], in declaration order.
    ([hoursPerShift] is not a cell but a constant.) *)
Record State (num : Type) : Type := {
  st_webWidth : num;
  st_jobsPerShift : num;
  st_shiftsPerDay : num;
  st_daysPerYear : num;
  st_stopsPerJobBaseline : num;
  st_reductionPercent : num;
  st_wastePerStopM : num;
  st_speedMPerMin : num;
  st_uptimePercent : num;
  st_substratePrice : num;
  st_substrate : Substrate;
  st_haasPrice : num
}.

Unset Implicit Arguments.

(** What the user can do to the page. *)
Inductive Event (num : Type) : Type :=
| WebWidthSlider (v0 : num)          (* onValueChange, v[0] *)
| JobsPerShiftInput (value : string) (* onChange, e.target.value *)
| ShiftsSegment (i : nat)            (* click on the i-th segment *)
| DaysPerYearInput (value : string)
| StopsPerJobInput (value : string)
| ReductionSlider (v0 : num)
| WastePerStopInput (value : string)
| SpeedSlider (v0 : num)
| UptimeSlider (v0 : num)
| SubstrateButton (s : Substrate)
| SubstratePriceInput (value : string)
| PriceChipButton (c : PriceChip)
| ResetButton
| ExportButton                       (* changes no cell *)
| StartButton.                       (* scrolls; changes no cell *)

Arguments WebWidthSlider {num} v0.
Arguments JobsPerShiftInput {num} value.
Arguments ShiftsSegment {num} i.
Arguments DaysPerYearInput {num} value.
Arguments StopsPerJobInput {num} value.
Arguments ReductionSlider {num} v0.
Arguments WastePerStopInput {num} value.
Arguments SpeedSlider {num} v0.
Arguments UptimeSlider {num} v0.
Arguments SubstrateButton {num} s.
Arguments SubstratePriceInput {num} value.
Arguments PriceChipButton {num} c.
Arguments ResetButton {num}.
Arguments ExportButton {num}.
Arguments StartButton {num}.

Section Shell.
Context {num : Type} {A : Arith num} {P : Platform num}.
Local Open Scope num_scope.

(** The setters, each replacing one cell. *)

Definition setWebWidth (v : num) (s : State num) : State num :=
  let '(Build_State _ b c d e f g h i j k l) := s in
  Build_State v b c d e f g h i j k l.
Definition setJobsPerShift (v : num) (s : State num) : State num :=
  let '(Build_State a _ c d e f g h i j k l) := s in
  Build_State a v c d e f g h i j k l.
Definition setShiftsPerDay (v : num) (s : State num) : State num :=
  let '(Build_State a b _ d e f g h i j k l) := s in
  Build_State a b v d e f g h i j k l.
Definition setDaysPerYear (v : num) (s : State num) : State num :=
  let '(Build_State a b c _ e f g h i j k l) := s in
  Build_State a b c v e f g h i j k l.
Definition setStopsPerJobBaseline (v : num) (s : State num) : State num :=
  let '(Build_State a b c d _ f g h i j k l) := s in
  Build_State a b c d v f g h i j k l.
Definition setReductionPercent (v : num) (s : State num) : State num :=
  let '(Build_State a b c d e _ g h i j k l) := s in
  Build_State a b c d e v g h i j k l.
Definition setWastePerStopM (v : num) (s : State num) : State num :=
  let '(Build_State a b c d e f _ h i j k l) := s in
  Build_State a b c d e f v h i j k l.
Definition setSpeedMPerMin (v : num) (s : State num) : State num :=
  let '(Build_State a b c d e f g _ i j k l) := s in
  Build_State a b c d e f g v i j k l.
Definition setUptimePercent (v : num) (s : State num) : State num :=
  let '(Build_State a b c d e f g h _ j k l) := s in
  Build_State a b c d e f g h v j k l.
Definition setSubstratePrice (v : num) (s : State num) : State num :=
  let '(Build_State a b c d e f g h i _ k l) := s in
  Build_State a b c d e f g h i v k l.
Definition setSubstrate (v : Substrate) (s : State num) : State num :=
  let '(Build_State a b c d e f g h i j _ l) := s in
  Build_State a b c d e f g h i j v l.
Definition setHaasPrice (v : num) (s : State num) : State num :=
  let '(Build_State a b c d e f g h i j k _) := s in
  Build_State a b c d e f g h i j k v.

(** The initial values of the cells. *)
Definition initialState : State num :=
  {| st_webWidth := lit 0.33;
     st_jobsPerShift := lit 6;
     st_shiftsPerDay := lit 2;
     st_daysPerYear := lit 250;
     st_stopsPerJobBaseline := lit 6;
     st_reductionPercent := lit 50;
     st_wastePerStopM := lit 100;
     st_speedMPerMin := lit 165;
     st_uptimePercent := lit 60;
     st_substratePrice := lit 0.6;
     st_substrate := PETG;
     st_haasPrice := lit 20000 |}.

(** [const hoursPerShift = 8]. *)
Definition fixedHoursPerShift : num := lit 8.

(** The object [params] built on every render. *)
Definition params (s : State num) : ROIParams num :=
  {| webWidth := s.(st_webWidth);
     jobsPerShift := s.(st_jobsPerShift);
     shiftsPerDay := s.(st_shiftsPerDay);
     daysPerYear := s.(st_daysPerYear);
     stopsPerJobBaseline := s.(st_stopsPerJobBaseline);
     reductionPercent := s.(st_reductionPercent);
     wastePerStopM := s.(st_wastePerStopM);
     speedMPerMin := s.(st_speedMPerMin);
     uptimePercent := s.(st_uptimePercent);
     hoursPerShift := fixedHoursPerShift;
     substratePrice := s.(st_substratePrice);
     haasPrice := s.(st_haasPrice) |}.

Definition resetToDefaults (s : State num) : State num :=
  setHaasPrice (lit 20000)
  (setSubstratePrice (lit 0.6)
  (setUptimePercent (lit 60)
  (setSpeedMPerMin (lit 165)
  (setWastePerStopM (lit 100)
  (setReductionPercent (lit 50)
  (setStopsPerJobBaseline (lit 6)
  (setDaysPerYear (lit 250)
  (setShiftsPerDay (lit 2)
  (setJobsPerShift (lit 6)
  (setWebWidth (lit 0.33) s)))))))))).

(** The table [def] of the substrate buttons. *)
Definition substrateDefault (s : Substrate) : num :=
  match s with
  | PETG => lit 0.6
  | PVC => lit 0.45
  | OPS => lit 0.52
  | BOPP => lit 0.30
  end.

Definition priceOfChip (c : PriceChip) : num :=
  match c with
  | Chip050 => lit 0.5
  | Chip060 => lit 0.6
  | Chip070 => lit 0.7
  end.

(** [value || '0']: the empty string is the only falsy string. *)
Definition orZeroText (value : string) : string :=
  match value with
  | EmptyString => "0"%string
  | _ => value
  end.

(** [Segmented]: one button per option; a click hands the option to
    [onChange]; the button of the current value is the highlighted one. *)
Definition Segmented_click {S : Type}
    (options : list num) (onChange : num -> S) (i : nat) : option S :=
  option_map onChange (nth_error options i).

Definition Segmented_active (value : num) (options : list num) : list bool :=
  map (fun opt => value =? opt) options.

Definition shiftOptions : list num := [lit 1; lit 2; lit 3].

(** The handlers wired in the markup. *)
Definition handle (s : State num) (ev : Event num) : State num :=
  match ev with
  | WebWidthSlider v0 => setWebWidth (roundTo2 v0) s
  | JobsPerShiftInput value =>
      setJobsPerShift (parseInt10 (orZeroText value)) s
  | ShiftsSegment i =>
      match Segmented_click shiftOptions (fun v => setShiftsPerDay v s) i with
      | Some s' => s'
      | None => s
      end
  | DaysPerYearInput value =>
      setDaysPerYear (parseInt10 (orZeroText value)) s
  | StopsPerJobInput value =>
      setStopsPerJobBaseline (parseInt10 (orZeroText value)) s
  | ReductionSlider v0 => setReductionPercent v0 s
  | WastePerStopInput value =>
      setWastePerStopM (parseInt10 (orZeroText value)) s
  | SpeedSlider v0 => setSpeedMPerMin v0 s
  | UptimeSlider v0 => setUptimePercent v0 s
  | SubstrateButton x => setSubstratePrice (substrateDefault x) (setSubstrate x s)
  | SubstratePriceInput value =>
      setSubstratePrice (parseFloat (orZeroText value)) s
  | PriceChipButton c => setSubstratePrice (priceOfChip c) s
  | ResetButton => resetToDefaults s
  | ExportButton => s
  | StartButton => s
  end.

(** The page after a sequence of events, from its first render. *)
Definition run (evs : list (Event num)) : State num :=
  fold_left handle evs initialState.

(** What the results column shows, before formatting. *)

(** [r.m2CalagePerYear + r.m2ThreeMmPerYear], the total area. *)
Definition totalM2 (r : ROIResult num) : num :=
  r.(m2CalagePerYear) + r.(m2ThreeMmPerYear).

(** [r.euroNet >= 0]: green when true, red otherwise. *)
Definition netIsGain (r : ROIResult num) : bool := lit 0 <=? r.(euroNet).

End Shell.

(** ** The PDF export *)

(** The calls the export makes on the jsPDF document.  Coordinates are in
    points; they are sums of small integer literals, which binary64 holds
    exactly, hence [Z]. *)
Inductive DocCall : Type :=
| doc_setFont (fontName fontStyle : string)
| doc_setFontSize (size : Z)
| doc_text (s : string) (x y : Z)
| doc_textLines (lines : list string) (x y : Z)
| doc_setDrawColor (ch : Z)
| doc_line (x1 y1 x2 y2 : Z)
| doc_save (filename : string).


(** The body of the export threads the pen height [y] and the document. *)
Definition Pdf (T : Type) : Type := Z * list DocCall -> T * (Z * list DocCall).


Definition pdf_bind {T U : Type} (c : Pdf T) (k : T -> Pdf U) : Pdf U :=
  fun s => let '(t, s') := c s in k t s'.

Declare Scope pdf_scope.
Delimit Scope pdf_scope with pdf.
Notation "c1 ;; c2" := (pdf_bind c1 (fun _ => c2))
  (at level 61, right associativity) : pdf_scope.
Notation "x <- c1 ;; c2" := (pdf_bind c1 (fun x => c2))
  (at level 61, c1 at next level, right associativity) : pdf_scope.




Section PdfExport.
Context {num : Type} {A : Arith num} {P : Platform num} {R : Rounding num}.
Local Open Scope pdf_scope.
Local Open Scope string_scope.



















End PdfExport.

(** * Properties *)

(** ** binary64: zeros and signs through the operations *)

Lemma isZero_spec (x : float) : B64.isZero x = B64.SFzero (Prim2SF x).
Proof.
  unfold B64.isZero. rewrite FloatAxioms.eqb_spec.
  change (Prim2SF PrimFloat.zero) with (S754_zero false).
  now destruct (Prim2SF x) as [s|s| |s m e]; try destruct s.
Qed.

Lemma isZero_iff (x : float) :
  B64.isZero x = true <-> x = 0%float \/ x = (-0)%float.
Proof.
  split.
  - rewrite isZero_spec. destruct (Prim2SF x) as [s|s| |s m e] eqn:E;
      try discriminate.
    intros _. destruct s; [right|left]; apply Prim2SF_inj; now rewrite E.
  - now intros [-> | ->].
Qed.

Lemma isFinite_spec (x : float) :
  B64.isFinite x = B64.SFfin (Prim2SF x).
Proof. reflexivity. Qed.

(** What rounding can return: the sign it was given survives. *)
Lemma binary_round_aux_cases (sx : bool) (mx ex : Z) (lx : location) :
  let r := binary_round_aux prec emax sx mx ex lx in
  r = S754_nan \/ r = S754_zero sx \/ r = S754_infinity sx \/
  exists m e, r = S754_finite sx m e.
Proof.
  unfold binary_round_aux.
  destruct (shr_fexp prec emax mx ex lx) as [mrs' e'].
  destruct (shr_fexp prec emax _ e' loc_Exact) as [mrs'' e''].
  destruct (shr_m mrs'') as [|m|m]; auto.
  destruct (Z.leb e'' (emax - prec)); eauto 6.
Qed.

Lemma binary_round_aux_notneg (mx ex : Z) (lx : location) :
  B64.SFnotneg (binary_round_aux prec emax false mx ex lx) = true.
Proof.
  destruct (binary_round_aux_cases false mx ex lx) as [E|[E|[E|(m & e & E)]]];
    now rewrite E.
Qed.

Lemma SFmul_zero_r (x y : spec_float) :
  B64.SFfin x = true -> B64.SFzero y = true ->
  B64.SFzero (SF64mul x y) = true.
Proof. now destruct x, y. Qed.

Lemma SFmul_zero_l (x y : spec_float) :
  B64.SFzero x = true -> B64.SFfin y = true ->
  B64.SFzero (SF64mul x y) = true.
Proof. now destruct x, y. Qed.

Lemma SFmul_zero_r_inv (x y : spec_float) :
  B64.SFzero y = true -> B64.SFzero (SF64mul x y) = true ->
  B64.SFfin x = true.
Proof. now destruct x, y. Qed.

Lemma SFmul_zero_l_inv (x y : spec_float) :
  B64.SFzero x = true -> B64.SFzero (SF64mul x y) = true ->
  B64.SFfin y = true.
Proof. now destruct x, y. Qed.

Lemma SFmul_mul_zero_inv (x y z : spec_float) :
  B64.SFzero y = true -> B64.SFzero (SF64mul (SF64mul x y) z) = true ->
  B64.SFzero (SF64mul x y) = true.
Proof. now destruct x, y, z. Qed.

Lemma SFdiv_mul_zero_inv (x y : spec_float) (s : bool) (m : positive) (e : Z) :
  B64.SFzero y = true ->
  B64.SFzero (SF64div (SF64mul x y) (S754_finite s m e)) = true ->
  B64.SFfin x = true.
Proof. now destruct x, y. Qed.

Lemma SFeqb_refl (x : spec_float) : x <> S754_nan -> SFeqb x x = true.
Proof.
  destruct x as [s|s| |s m e]; try now (try destruct s).
  intros _. unfold SFeqb, SFcompare.
  rewrite Z.compare_refl, Pos.compare_cont_refl. now destruct s.
Qed.

Lemma SFmul_notneg (x y : spec_float) :
  B64.SFnotneg x = true -> B64.SFnotneg y = true ->
  B64.SFnotneg (SF64mul x y) = true.
Proof.
  destruct x as [sx|sx| |sx mx ex], y as [sy|sy| |sy my ey]; simpl;
    try reflexivity; try (destruct sx, sy; simpl; congruence).
  destruct sx, sy; simpl; try congruence. intros _ _.
  apply binary_round_aux_notneg.
Qed.

Lemma SFdiv_zero_l (x : spec_float) (s : bool) (m : positive) (e : Z) :
  B64.SFzero x = true ->
  B64.SFzero (SF64div x (S754_finite s m e)) = true.
Proof. now destruct x. Qed.

Lemma SFdiv_notneg (x : spec_float) (m : positive) (e : Z) :
  B64.SFnotneg x = true ->
  B64.SFnotneg (SF64div x (S754_finite false m e)) = true.
Proof.
  destruct x as [sx|sx| |sx mx ex]; simpl; try reflexivity.
  - now destruct sx.
  - destruct sx; simpl; try congruence. intros _.
    destruct (SFdiv_core_binary prec emax (Z.pos mx) ex (Z.pos m) e)
      as [[mz ez] lz].
    apply binary_round_aux_notneg.
Qed.

Lemma binary_round_notneg (m : positive) (e : Z) :
  B64.SFnotneg (binary_round prec emax false m e) = true.
Proof.
  unfold binary_round.
  destruct (shl_align m e _) as [mz ez].
  apply binary_round_aux_notneg.
Qed.

Lemma SFadd_notneg (x y : spec_float) :
  B64.SFnotneg x = true -> B64.SFnotneg y = true ->
  B64.SFnotneg (SF64add x y) = true.
Proof.
  destruct x as [sx|sx| |sx mx ex], y as [sy|sy| |sy my ey]; simpl;
    try reflexivity; try (destruct sx, sy; simpl; congruence).
  destruct sx, sy; simpl; try congruence. intros _ _.
  apply binary_round_notneg.
Qed.

Lemma SFadd_zero (x y : spec_float) :
  B64.SFzero x = true -> B64.SFzero y = true ->
  B64.SFzero (SF64add x y) = true.
Proof.
  destruct x as [sx|sx| |sx mx ex], y as [sy|sy| |sy my ey]; simpl;
    try congruence.
  now destruct sx, sy.
Qed.

(** The same facts on primitive floats, through the axioms that tie each
    primitive operation to its specification. *)

Lemma lit_100_float :
  Prim2SF (lit (num := float) 100) = S754_finite false 7036874417766400 (-46).
Proof. reflexivity. Qed.

Lemma NotNeg_of_leb (x : float) :
  PrimFloat.leb PrimFloat.zero x = true -> NotNeg x.
Proof.
  unfold NotNeg. rewrite leb_spec.
  change (Prim2SF PrimFloat.zero) with (S754_zero false).
  now destruct (Prim2SF x) as [s|s| |s m e]; try destruct s.
Qed.

Lemma NotNeg_ltb (x : float) :
  NotNeg x -> PrimFloat.ltb x PrimFloat.zero = false.
Proof.
  unfold NotNeg. rewrite ltb_spec.
  change (Prim2SF PrimFloat.zero) with (S754_zero false).
  now destruct (Prim2SF x) as [s|s| |s m e]; try destruct s.
Qed.

Lemma NotNeg_mul (x y : float) : NotNeg x -> NotNeg y -> NotNeg (x * y)%float.
Proof. unfold NotNeg. rewrite mul_spec. apply SFmul_notneg. Qed.

Lemma NotNeg_add (x y : float) : NotNeg x -> NotNeg y -> NotNeg (x + y)%float.
Proof. unfold NotNeg. rewrite add_spec. apply SFadd_notneg. Qed.

Lemma NotNeg_div_100 (x : float) : NotNeg x -> NotNeg (x / lit 100%Q)%float.
Proof.
  unfold NotNeg. rewrite div_spec, lit_100_float. apply SFdiv_notneg.
Qed.

Lemma NotNeg_lit_60 : NotNeg (lit 60%Q).
Proof. reflexivity. Qed.

Lemma NotNeg_lit_0_003 : NotNeg (lit 0.003%Q).
Proof. reflexivity. Qed.

Create HintDb notneg.
#[local] Hint Resolve NotNeg_mul NotNeg_add NotNeg_div_100 NotNeg_lit_60
  NotNeg_lit_0_003 NotNeg_of_leb : notneg.

Lemma isZero_mul_r (x y : float) :
  B64.isFinite x = true -> B64.isZero y = true ->
  B64.isZero (x * y)%float = true.
Proof. rewrite !isZero_spec, isFinite_spec, mul_spec. apply SFmul_zero_r. Qed.

Lemma isZero_mul_l (x y : float) :
  B64.isZero x = true -> B64.isFinite y = true ->
  B64.isZero (x * y)%float = true.
Proof. rewrite !isZero_spec, isFinite_spec, mul_spec. apply SFmul_zero_l. Qed.

Lemma isZero_mul_r_inv (x y : float) :
  B64.isZero y = true -> B64.isZero (x * y)%float = true ->
  B64.isFinite x = true.
Proof. rewrite !isZero_spec, isFinite_spec, mul_spec. apply SFmul_zero_r_inv. Qed.

Lemma isZero_mul_l_inv (x y : float) :
  B64.isZero x = true -> B64.isZero (x * y)%float = true ->
  B64.isFinite y = true.
Proof. rewrite !isZero_spec, isFinite_spec, mul_spec. apply SFmul_zero_l_inv. Qed.

Lemma isZero_mul_mul_inv (x y z : float) :
  B64.isZero y = true -> B64.isZero (x * y * z)%float = true ->
  B64.isZero (x * y)%float = true.
Proof. rewrite !isZero_spec, !mul_spec. apply SFmul_mul_zero_inv. Qed.

Lemma isZero_div_100_mul_inv (x y : float) :
  B64.isZero y = true -> B64.isZero (x * y / lit 100%Q)%float = true ->
  B64.isFinite x = true.
Proof.
  rewrite !isZero_spec, isFinite_spec, div_spec, mul_spec, lit_100_float.
  apply SFdiv_mul_zero_inv.
Qed.

Lemma eqb_opp_not_NaN (x h : float) :
  PrimFloat.eqb x (- h)%float = true -> B64.isNaN h = false.
Proof.
  unfold B64.isNaN. rewrite !FloatAxioms.eqb_spec, opp_spec.
  intros E. rewrite SFeqb_refl; [reflexivity|].
  intros N. rewrite N in E. now destruct (Prim2SF x).
Qed.

Lemma isZero_div_100 (x : float) :
  B64.isZero x = true -> B64.isZero (x / lit 100%Q)%float = true.
Proof.
  rewrite !isZero_spec, div_spec, lit_100_float. apply SFdiv_zero_l.
Qed.

Lemma isZero_add (x y : float) :
  B64.isZero x = true -> B64.isZero y = true ->
  B64.isZero (x + y)%float = true.
Proof. rewrite !isZero_spec, add_spec. apply SFadd_zero. Qed.

Lemma isZero_lit_0_003_mul (x : float) :
  B64.isZero x = true -> B64.isZero (lit 0.003%Q * x)%float = true.
Proof. intros Hx. now apply isZero_mul_r. Qed.

(** [0 - h === -h] for every [h] but NaN, whichever zero stands on the left. *)
Lemma zero_sub_opp (z h : float) :
  B64.isZero z = true -> B64.isNaN h = false ->
  PrimFloat.eqb (z - h)%float (PrimFloat.opp h) = true.
Proof.
  unfold B64.isNaN.
  rewrite isZero_spec, !FloatAxioms.eqb_spec, sub_spec, opp_spec.
  destruct (Prim2SF z) as [sz|sz| |sz mz ez]; try discriminate. intros _.
  destruct (Prim2SF h) as [s|s| |s m e]; simpl; try discriminate; intros _.
  - now destruct sz, s.
  - now destruct s.
  - unfold SFeqb, SFcompare.
    rewrite Z.compare_refl, Pos.compare_cont_refl. now destruct s.
Qed.

(** ** Literals *)

(** The literals of the source, as binary64 numbers: the nearest one each. *)
Lemma float_literals :
  lit (num := float) 0.33 = 0.33%float /\
  lit (num := float) 0.6 = 0.6%float /\
  lit (num := float) 0.5 = 0.5%float /\
  lit (num := float) 0.003 = 0.003%float /\
  lit (num := float) 0.001 = 0.001%float /\
  lit (num := float) 100 = 100%float /\
  lit (num := float) 20000 = 20000%float.
Proof. repeat split; reflexivity. Qed.

(** ** The engine *)

Section Generic.
Context {num : Type} {A : Arith num}.
Local Open Scope num_scope.

(** C2: every field of the result, and the local [stopsAvoidedPerJob], is the
    formula of the fixed sequence applied to the inputs, with no rounding
    step anywhere; in particular [euroNet] is [euroTotal - haasPrice].  This
    holds in any arithmetic, binary64 and exact alike. *)
Theorem computeROI_formulas (p : ROIParams num) :
  let r := computeROI p in
  r.(jobsPerDay) = p.(jobsPerShift) * p.(shiftsPerDay) /\
  r.(jobsPerYear) = p.(jobsPerShift) * p.(shiftsPerDay) * p.(daysPerYear) /\
  stopsAvoidedPerJob p
    = p.(stopsPerJobBaseline) * p.(reductionPercent) / lit 100 /\
  r.(m2PerStop) = p.(webWidth) * p.(wastePerStopM) /\
  r.(m2CalagePerYear)
    = r.(m2PerStop) * stopsAvoidedPerJob p * r.(jobsPerYear) /\
  minutesPerDay p = p.(hoursPerShift) * lit 60 * p.(shiftsPerDay) /\
  printedLengthPerDay p
    = p.(speedMPerMin) * (p.(uptimePercent) / lit 100) * minutesPerDay p /\
  r.(printedLengthPerYear)
    = p.(speedMPerMin) * (p.(uptimePercent) / lit 100)
      * (p.(hoursPerShift) * lit 60 * p.(shiftsPerDay)) * p.(daysPerYear) /\
  r.(m2ThreeMmPerYear) = lit 0.003 * r.(printedLengthPerYear) /\
  r.(euroCalage) = r.(m2CalagePerYear) * p.(substratePrice) /\
  r.(euroThreeMm) = r.(m2ThreeMmPerYear) * p.(substratePrice) /\
  r.(euroTotal) = r.(euroCalage) + r.(euroThreeMm) /\
  r.(euroNet) = r.(euroTotal) - p.(haasPrice).
Proof. cbv zeta. repeat split. Qed.

(** C3 (as the code has it): the parameter object has twelve properties and
    the result object has ten, with the names of the interface
    [ROIResult], each once. *)
Theorem computeROI_ten_fields (p : ROIParams num) :
  List.length (ROIParams_entries p) = 12 /\
  List.length (ROIResult_entries (computeROI p)) = 10 /\
  map fst (ROIResult_entries (computeROI p))
    = [ "jobsPerDay"; "jobsPerYear"; "m2PerStop"; "m2CalagePerYear";
        "printedLengthPerYear"; "m2ThreeMmPerYear"; "euroCalage";
        "euroThreeMm"; "euroTotal"; "euroNet" ]%string /\
  NoDup (map fst (ROIResult_entries (computeROI p))).
Proof.
  repeat split.
  cbn [map fst ROIResult_entries].
  repeat (constructor; [cbn [In]; intuition discriminate|]).
  constructor.
Qed.

(** C9: a call of [computeROI], run as the text it is, reads the parameter
    object and its own constants and nothing of the enclosing scope, and
    assigns to nothing: whatever state [outer] surrounds the call, the
    object returned is the one [computeROI] computes from the twelve inputs,
    and the state is left as it was.  So two calls on the same parameters,
    one after the other, return the same object, and so do calls made in
    different states. *)
Theorem computeROI_no_hidden_state (outer : Scope) (p : ROIParams num) :
  callFunction computeROI_text outer (ROIParams_entries p)
    = Some (ROIResult_entries (computeROI p), outer) /\
  (forall outer' : Scope,
     option_map fst
       (callFunction computeROI_text outer' (ROIParams_entries p))
     = option_map fst
         (callFunction computeROI_text outer (ROIParams_entries p))) /\
  match callFunction computeROI_text outer (ROIParams_entries p) with
  | Some (r1, outer1) =>
      match callFunction computeROI_text outer1 (ROIParams_entries p) with
      | Some (r2, outer2) => r1 = r2 /\ outer2 = outer
      | None => False
      end
  | None => False
  end.
Proof.
  assert (E : forall o : Scope,
             callFunction computeROI_text o (ROIParams_entries p)
             = Some (ROIResult_entries (computeROI p), o))
    by (intros o; vm_compute; reflexivity).
  split; [apply E|split].
  - intros outer'. now rewrite !E.
  - rewrite !E. now split.
Qed.

End Generic.

(** C3, as stated: the result of the baseline call does not have twelve
    properties. *)
Lemma computeROI_not_twelve_fields :
  List.length (ROIResult_entries (computeROI (baselineParams (num := float))))
    <> 12.
Proof. cbn. discriminate. Qed.

(** In exact arithmetic the grouping of the printed-length product is
    immaterial: it is the flat product of its six factors. *)
Lemma printedLengthPerYear_flat_exact (p : ROIParams Qc) :
  (computeROI p).(printedLengthPerYear)
  = (p.(speedMPerMin) * (p.(uptimePercent) / Q2Qc 100) * p.(hoursPerShift)
     * Q2Qc 60 * p.(shiftsPerDay) * p.(daysPerYear))%Qc.
Proof.
  unfold computeROI, printedLengthPerDay, minutesPerDay. cbn. ring.
Qed.

(** C1: the baseline scenario, in binary64: the nine figures come out
    exactly, with no rounding error left in any. *)
Theorem baseline_scenario :
  let r := computeROI (baselineParams (num := float)) in
  r.(jobsPerYear) = 3000%float /\
  r.(m2PerStop) = 33%float /\
  r.(m2CalagePerYear) = 297000%float /\
  r.(printedLengthPerYear) = 23760000%float /\
  r.(m2ThreeMmPerYear) = 71280%float /\
  r.(euroCalage) = 178200%float /\
  r.(euroThreeMm) = 42768%float /\
  r.(euroTotal) = 220968%float /\
  r.(euroNet) = 200968%float.
Proof. cbv zeta. repeat split; vm_compute; reflexivity. Qed.

(** The intermediate values of the baseline scenario. *)
Lemma baseline_intermediates :
  stopsAvoidedPerJob (baselineParams (num := float)) = 3%float /\
  minutesPerDay (baselineParams (num := float)) = 960%float /\
  printedLengthPerDay (baselineParams (num := float)) = 95040%float /\
  (computeROI (baselineParams (num := float))).(jobsPerDay) = 12%float.
Proof. repeat split; vm_compute; reflexivity. Qed.

(** The same scenario in exact arithmetic. *)
Lemma baseline_scenario_exact :
  computeROI (baselineParams (num := Qc))
  = {| jobsPerDay := lit 12; jobsPerYear := lit 3000; m2PerStop := lit 33;
       m2CalagePerYear := lit 297000; printedLengthPerYear := lit 23760000;
       m2ThreeMmPerYear := lit 71280; euroCalage := lit 178200;
       euroThreeMm := lit 42768; euroTotal := lit 220968;
       euroNet := lit 200968 |}.
Proof.
  unfold computeROI; cbv zeta. f_equal; apply Qc_is_canon; reflexivity.
Qed.

(** The fractional number of stops is kept: 5 stops cut by 25 % are 1.25. *)
Lemma stopsAvoidedPerJob_fractional :
  stopsAvoidedPerJob
    (with_reductionPercent (lit 25)
       {| webWidth := 0.33%float; jobsPerShift := 6%float;
          shiftsPerDay := 2%float; daysPerYear := 250%float;
          stopsPerJobBaseline := 5%float; reductionPercent := 50%float;
          wastePerStopM := 100%float; speedMPerMin := 165%float;
          uptimePercent := 60%float; hoursPerShift := 8%float;
          substratePrice := 0.6%float; haasPrice := 20000%float |})
  = 1.25%float.
Proof. reflexivity. Qed.

(** ** The test panel *)

(** C5: the panel calls the engine once, on the baseline input, and holds
    two checks, in this order: the [m2CalagePerYear] of the result against
    297000 and its [m2ThreeMmPerYear] against 71280, the values of two
    literal formulas that do not call the engine, each check being
    [|actual - expected| <= |expected| * 0.001].  This is so whatever the
    engine returns; and with [computeROI] as the engine both checks pass. *)
Theorem TestPanel_passes :
  (forall engine : ROIParams float -> ROIResult float,
     TestPanel_with engine
     = [ ("Calage m²/year"%string,
          PrimFloat.leb
            (PrimFloat.abs
               ((engine baselineParams).(m2CalagePerYear) - 297000)%float)
            (PrimFloat.abs 297000 * 0.001)%float);
         ("−3 mm m²/year"%string,
          PrimFloat.leb
            (PrimFloat.abs
               ((engine baselineParams).(m2ThreeMmPerYear) - 71280)%float)
            (PrimFloat.abs 71280 * 0.001)%float) ]) /\
  (forall actual expected : float,
     approxEqual_default actual expected
     = PrimFloat.leb (PrimFloat.abs (actual - expected))
                     (PrimFloat.abs expected * 0.001)%float) /\
  expected_m2CalagePerYear (num := float) = 297000%float /\
  expected_m2ThreeMmPerYear (num := float) = 71280%float /\
  TestPanel_tests (num := float) = TestPanel_with computeROI /\
  map snd (TestPanel_tests (num := float)) = [true; true].
Proof. repeat split. Qed.

(** A result that misses the expected area fails its check: the verdicts
    are not constant. *)
Lemma TestPanel_detects (b : ROIResult float) :
  B64.isZero b.(m2CalagePerYear) = true ->
  map snd (TestPanel_checks b)
  = [false; approxEqual_default b.(m2ThreeMmPerYear) 71280%float].
Proof.
  rewrite isZero_iff. unfold TestPanel_checks. cbn [map snd].
  now intros [-> | ->].
Qed.

(** The panel passes in exact arithmetic too. *)
Lemma TestPanel_passes_exact :
  map snd (TestPanel_tests (num := Qc)) = [true; true].
Proof. reflexivity. Qed.

(** C10: against an expected value of zero the tolerance is zero, and the
    check passes exactly when the actual value is zero ([=== 0], which both
    zeros satisfy and NaN does not). *)
Theorem approxEqual_expected_zero (actual : float) :
  approxEqual_default actual (lit 0) = true <-> (actual =? lit 0)%num = true.
Proof.
  unfold approxEqual_default, approxEqual.
  cbn [leb eqb abs sub mul lit float_Arith].
  change (PrimFloat.abs (float_lit 0) * float_lit 0.001)%float
    with PrimFloat.zero.
  change (float_lit 0) with PrimFloat.zero.
  rewrite leb_spec, abs_spec, sub_spec, FloatAxioms.eqb_spec.
  change (Prim2SF PrimFloat.zero) with (S754_zero false).
  destruct (Prim2SF actual) as [s|s| |s m e]; simpl;
    try destruct s; cbv [SFleb SFeqb SFcompare]; easy.
Qed.

(** In exact arithmetic likewise. *)
Lemma approxEqual_expected_zero_exact (actual : Qc) :
  approxEqual_default actual (lit 0) = true <-> actual = lit 0.
Proof.
  unfold approxEqual_default, approxEqual. cbn [leb abs sub mul lit Qc_Arith].
  change (Q2Qc 0) with 0%Qc.
  replace (Qcabs 0 * Q2Qc 0.001)%Qc with 0%Qc
    by (apply Qc_is_canon; reflexivity).
  replace (actual - 0)%Qc with actual by ring.
  split.
  - intros Hle. apply Qle_bool_iff in Hle. apply Qcabs_null.
    apply Qcle_antisym; [exact Hle|apply Qcabs_nonneg].
  - intros ->. reflexivity.
Qed.

(** ** Signs of the results *)

(** C4, as stated: with a negative substrate price (an input the price field
    accepts) the makeready saving of the baseline line is negative. *)
Lemma negative_price_negative_saving :
  let p := with_substratePrice (-0.6)%float baselineParams in
  PrimFloat.ltb (computeROI p).(euroCalage) 0 = true /\
  (computeROI p).(euroCalage) = (-178200)%float /\
  (computeROI p).(euroTotal) = (-220968)%float.
Proof. repeat split. Qed.

(** C4, as the code has it: when the eleven inputs the savings depend on are
    all [>= 0], no field other than [euroNet] is below zero.  (A field can
    still be NaN, when a product overflows to Infinity and is multiplied by
    zero; NaN is not below zero.) *)
Theorem nonneg_inputs_nonneg_outputs (p : ROIParams float) :
  nonNegativeInputs p = true ->
  Forall (fun x => PrimFloat.ltb x 0 = false) (nonNetFields (computeROI p)).
Proof.
  unfold nonNegativeInputs. rewrite !andb_true_iff.
  cbn [leb lit float_Arith]. change (float_lit 0) with PrimFloat.zero.
  intros [[[[[[[[[[Hw Hj] Hs] Hd] Hb] Hr] Hm] Hv] Hu] Hh] Hp].
  apply NotNeg_of_leb in Hw, Hj, Hs, Hd, Hb, Hr, Hm, Hv, Hu, Hh, Hp.
  unfold nonNetFields, computeROI, stopsAvoidedPerJob, printedLengthPerDay,
    minutesPerDay.
  cbn [jobsPerDay jobsPerYear m2PerStop m2CalagePerYear printedLengthPerYear
       m2ThreeMmPerYear euroCalage euroThreeMm euroTotal mul div add
       float_Arith].
  repeat (apply Forall_cons; [apply NotNeg_ltb; auto 20 with notneg|]).
  apply Forall_nil.
Qed.

Lemma nonneg_inputs_nonneg_outputs_witness :
  Forall (fun x => PrimFloat.ltb x 0 = false)
         (nonNetFields (computeROI (baselineParams (num := float)))).
Proof.
  apply (nonneg_inputs_nonneg_outputs baselineParams). reflexivity.
Defined.

(** In exact arithmetic the same inputs give results that are all [>= 0]. *)

Lemma Qc_mul_nonneg (x y : Qc) : (0 <= x -> 0 <= y -> 0 <= x * y)%Qc.
Proof.
  intros Hx Hy. rewrite <- (Qcmult_0_l y). now apply Qcmult_le_compat_r.
Qed.

Lemma Qc_add_nonneg (x y : Qc) : (0 <= x -> 0 <= y -> 0 <= x + y)%Qc.
Proof.
  intros Hx Hy. rewrite <- (Qcplus_0_l 0). now apply Qcplus_le_compat.
Qed.

Lemma Qc_div_100_nonneg (x : Qc) : (0 <= x -> 0 <= x / Q2Qc 100)%Qc.
Proof. intros Hx. apply Qc_mul_nonneg; [exact Hx|discriminate]. Qed.

Lemma nonneg_inputs_nonneg_outputs_exact (p : ROIParams Qc) :
  nonNegativeInputs p = true ->
  Forall (fun x => 0 <= x)%Qc (nonNetFields (computeROI p)).
Proof.
  unfold nonNegativeInputs. rewrite !andb_true_iff.
  cbn [leb lit Qc_Arith]. rewrite !Qle_bool_iff.
  intros [[[[[[[[[[Hw Hj] Hs] Hd] Hb] Hr] Hm] Hv] Hu] Hh] Hp].
  unfold nonNetFields, computeROI, stopsAvoidedPerJob, printedLengthPerDay,
    minutesPerDay.
  cbn [jobsPerDay jobsPerYear m2PerStop m2CalagePerYear printedLengthPerYear
       m2ThreeMmPerYear euroCalage euroThreeMm euroTotal mul div add lit
       Qc_Arith].
  assert (H60 : (0 <= Q2Qc 60)%Qc) by discriminate.
  assert (H3 : (0 <= Q2Qc 0.003)%Qc) by discriminate.
  repeat (apply Forall_cons;
          [auto 20 using Qc_mul_nonneg, Qc_add_nonneg, Qc_div_100_nonneg|]).
  apply Forall_nil.
Qed.

(** ** Boundaries *)

(** C6, as stated: with [reductionPercent = 0] and finite inputs,
    [m2PerStop] is Infinity, [stopsAvoidedPerJob] is 0, and their product,
    hence [m2CalagePerYear] and [euroCalage], is NaN, not 0. *)
Lemma zero_reduction_overflow :
  overflowingStop.(reductionPercent) = 0%float /\
  Forall (fun kv => B64.isFinite (snd kv) = true)
         (ROIParams_entries overflowingStop) /\
  (computeROI overflowingStop).(m2PerStop) = infinity /\
  stopsAvoidedPerJob overflowingStop = 0%float /\
  (computeROI overflowingStop).(m2CalagePerYear) = nan /\
  (computeROI overflowingStop).(euroCalage) = nan /\
  B64.isZero (computeROI overflowingStop).(m2CalagePerYear) = false /\
  B64.isZero (computeROI overflowingStop).(euroCalage) = false.
Proof. repeat split; repeat constructor. Qed.

(** C6, as the code has it: with [reductionPercent] zero, and
    [stopsPerJobBaseline], [substratePrice] and the computed [m2PerStop] and
    [jobsPerYear] finite, the stops avoided, the makeready area and the
    makeready saving are zero. *)
Theorem zero_reduction (p : ROIParams float) :
  B64.isZero p.(reductionPercent) = true ->
  B64.isFinite p.(stopsPerJobBaseline) = true ->
  B64.isFinite (computeROI p).(m2PerStop) = true ->
  B64.isFinite (computeROI p).(jobsPerYear) = true ->
  B64.isFinite p.(substratePrice) = true ->
  B64.isZero (stopsAvoidedPerJob p) = true /\
  B64.isZero (computeROI p).(m2CalagePerYear) = true /\
  B64.isZero (computeROI p).(euroCalage) = true.
Proof.
  intros Hr Hb Hm Hj Hp.
  assert (Hs : B64.isZero (stopsAvoidedPerJob p) = true).
  { unfold stopsAvoidedPerJob. cbn [mul div float_Arith].
    apply isZero_div_100. now apply isZero_mul_r. }
  assert (Hc : B64.isZero (computeROI p).(m2CalagePerYear) = true).
  { cbn [computeROI m2CalagePerYear mul float_Arith].
    apply isZero_mul_l; [|exact Hj]. now apply isZero_mul_r. }
  repeat split; try assumption.
  cbn [computeROI euroCalage mul float_Arith].
  now apply isZero_mul_l.
Qed.

(** The four finiteness conditions are also necessary. *)
Lemma zero_reduction_converse (p : ROIParams float) :
  B64.isZero p.(reductionPercent) = true ->
  B64.isZero (stopsAvoidedPerJob p) = true ->
  B64.isZero (computeROI p).(m2CalagePerYear) = true ->
  B64.isZero (computeROI p).(euroCalage) = true ->
  B64.isFinite p.(stopsPerJobBaseline) = true /\
  B64.isFinite (computeROI p).(m2PerStop) = true /\
  B64.isFinite (computeROI p).(jobsPerYear) = true /\
  B64.isFinite p.(substratePrice) = true.
Proof.
  intros Hr Hs Hc He.
  assert (Hms : B64.isZero ((computeROI p).(m2PerStop)
                            * stopsAvoidedPerJob p)%float = true)
    by (now apply isZero_mul_mul_inv with (z := (computeROI p).(jobsPerYear))).
  repeat split.
  - now apply isZero_div_100_mul_inv with (y := p.(reductionPercent)).
  - now apply isZero_mul_r_inv with (y := stopsAvoidedPerJob p).
  - eapply isZero_mul_l_inv; [exact Hms|exact Hc].
  - eapply isZero_mul_l_inv; [exact Hc|exact He].
Qed.

Lemma zero_reduction_witness :
  let p := with_reductionPercent 0%float baselineParams in
  B64.isZero (stopsAvoidedPerJob p) = true /\
  B64.isZero (computeROI p).(m2CalagePerYear) = true /\
  B64.isZero (computeROI p).(euroCalage) = true.
Proof.
  apply (zero_reduction (with_reductionPercent 0%float baselineParams));
    reflexivity.
Defined.

(** In exact arithmetic nothing overflows and the boundary is unconditional. *)
Lemma zero_reduction_exact (p : ROIParams Qc) :
  p.(reductionPercent) = lit 0 ->
  stopsAvoidedPerJob p = lit 0 /\
  (computeROI p).(m2CalagePerYear) = lit 0 /\
  (computeROI p).(euroCalage) = lit 0.
Proof.
  intros Hr.
  unfold computeROI, stopsAvoidedPerJob.
  cbn [m2CalagePerYear euroCalage mul div lit Qc_Arith] in *.
  rewrite Hr. change (Q2Qc 0) with 0%Qc. unfold Qcdiv.
  repeat split; ring.
Qed.

(** C7, as stated: with [daysPerYear = 0] and finite inputs,
    [printedLengthPerDay] is Infinity and its product with zero days is NaN,
    and so are the width saving, the total and the net, which is not
    [-haasPrice]. *)
Lemma zero_days_overflow :
  overflowingSpeed.(daysPerYear) = 0%float /\
  Forall (fun kv => B64.isFinite (snd kv) = true)
         (ROIParams_entries overflowingSpeed) /\
  printedLengthPerDay overflowingSpeed = infinity /\
  (computeROI overflowingSpeed).(printedLengthPerYear) = nan /\
  (computeROI overflowingSpeed).(m2ThreeMmPerYear) = nan /\
  (computeROI overflowingSpeed).(euroThreeMm) = nan /\
  (computeROI overflowingSpeed).(euroTotal) = nan /\
  (computeROI overflowingSpeed).(euroNet) = nan /\
  B64.isZero (computeROI overflowingSpeed).(printedLengthPerYear) = false /\
  PrimFloat.eqb (computeROI overflowingSpeed).(euroNet)
                (- overflowingSpeed.(haasPrice))%float = false.
Proof. repeat split; repeat constructor. Qed.

(** C7, as the code has it: with [daysPerYear] zero, and the three products
    that meet it ([jobsPerDay], [m2PerStop * stopsAvoidedPerJob],
    [printedLengthPerDay]) and [substratePrice] finite, the yearly counts,
    areas and savings are zero; and then [euroNet === -haasPrice] unless
    [haasPrice] is NaN. *)
Theorem zero_days (p : ROIParams float) :
  B64.isZero p.(daysPerYear) = true ->
  B64.isFinite (computeROI p).(jobsPerDay) = true ->
  B64.isFinite ((computeROI p).(m2PerStop) * stopsAvoidedPerJob p)%float
    = true ->
  B64.isFinite (printedLengthPerDay p) = true ->
  B64.isFinite p.(substratePrice) = true ->
  B64.isNaN p.(haasPrice) = false ->
  let r := computeROI p in
  B64.isZero r.(jobsPerYear) = true /\
  B64.isZero r.(printedLengthPerYear) = true /\
  B64.isZero r.(m2CalagePerYear) = true /\
  B64.isZero r.(m2ThreeMmPerYear) = true /\
  B64.isZero r.(euroCalage) = true /\
  B64.isZero r.(euroThreeMm) = true /\
  B64.isZero r.(euroTotal) = true /\
  PrimFloat.eqb r.(euroNet) (- p.(haasPrice))%float = true.
Proof.
  intros Hd Hj Hm Hl Hp Hh r.
  assert (Hjy : B64.isZero r.(jobsPerYear) = true)
    by (now apply isZero_mul_r).
  assert (Hly : B64.isZero r.(printedLengthPerYear) = true)
    by (now apply isZero_mul_r).
  assert (Hc : B64.isZero r.(m2CalagePerYear) = true)
    by (now apply isZero_mul_r).
  assert (H3 : B64.isZero r.(m2ThreeMmPerYear) = true)
    by (now apply isZero_lit_0_003_mul).
  assert (Hec : B64.isZero r.(euroCalage) = true)
    by (now apply isZero_mul_l).
  assert (He3 : B64.isZero r.(euroThreeMm) = true)
    by (now apply isZero_mul_l).
  assert (Het : B64.isZero r.(euroTotal) = true)
    by (now apply isZero_add).
  repeat split; try assumption.
  now apply zero_sub_opp.
Qed.

(** The five conditions are also necessary. *)
Lemma zero_days_converse (p : ROIParams float) :
  B64.isZero p.(daysPerYear) = true ->
  let r := computeROI p in
  B64.isZero r.(jobsPerYear) = true ->
  B64.isZero r.(printedLengthPerYear) = true ->
  B64.isZero r.(m2CalagePerYear) = true ->
  B64.isZero r.(euroCalage) = true ->
  PrimFloat.eqb r.(euroNet) (- p.(haasPrice))%float = true ->
  B64.isFinite r.(jobsPerDay) = true /\
  B64.isFinite (r.(m2PerStop) * stopsAvoidedPerJob p)%float = true /\
  B64.isFinite (printedLengthPerDay p) = true /\
  B64.isFinite p.(substratePrice) = true /\
  B64.isNaN p.(haasPrice) = false.
Proof.
  intros Hd r Hj Hl Hc He Hn.
  repeat split.
  - now apply isZero_mul_r_inv with (y := p.(daysPerYear)).
  - now apply isZero_mul_r_inv with (y := r.(jobsPerYear)).
  - now apply isZero_mul_r_inv with (y := p.(daysPerYear)).
  - eapply isZero_mul_l_inv; [exact Hc|exact He].
  - now apply eqb_opp_not_NaN with (x := r.(euroNet)).
Qed.

Lemma zero_days_witness :
  let r := computeROI (with_daysPerYear 0%float baselineParams) in
  B64.isZero r.(jobsPerYear) = true /\
  B64.isZero r.(printedLengthPerYear) = true /\
  B64.isZero r.(m2CalagePerYear) = true /\
  B64.isZero r.(m2ThreeMmPerYear) = true /\
  B64.isZero r.(euroCalage) = true /\
  B64.isZero r.(euroThreeMm) = true /\
  B64.isZero r.(euroTotal) = true /\
  PrimFloat.eqb r.(euroNet) (PrimFloat.opp 20000%float) = true.
Proof.
  exact (zero_days (with_daysPerYear 0%float baselineParams)
           eq_refl eq_refl eq_refl eq_refl eq_refl eq_refl).
Defined.

(** In exact arithmetic the scenario is unconditional. *)
Lemma zero_days_exact (p : ROIParams Qc) :
  p.(daysPerYear) = lit 0 ->
  let r := computeROI p in
  r.(jobsPerYear) = lit 0 /\
  r.(printedLengthPerYear) = lit 0 /\
  r.(m2CalagePerYear) = lit 0 /\
  r.(m2ThreeMmPerYear) = lit 0 /\
  r.(euroCalage) = lit 0 /\
  r.(euroThreeMm) = lit 0 /\
  r.(euroTotal) = lit 0 /\
  r.(euroNet) = (- p.(haasPrice))%Qc.
Proof.
  intros Hd r. subst r.
  unfold computeROI, stopsAvoidedPerJob, printedLengthPerDay, minutesPerDay.
  cbn [jobsPerYear printedLengthPerYear m2CalagePerYear m2ThreeMmPerYear
       euroCalage euroThreeMm euroTotal euroNet mul div add sub lit Qc_Arith]
    in *.
  rewrite Hd. change (Q2Qc 0) with 0%Qc. unfold Qcdiv.
  repeat split; ring.
Qed.

(** ** Linearity *)

(** C8, as stated: in binary64 each product is rounded, and scaling an input
    by [k] does not always scale the output by [k].  Web width 0.2 m tripled
    (waste 100 m per stop); waste 105 m per stop tripled (web 0.33 m); and the
    baseline price raised by a tenth. *)
Lemma proportionality_rounding :
  let p1 := with_webWidth 0.2%float baselineParams in
  let p2 := with_wastePerStopM 105%float baselineParams in
  let p3 := baselineParams (num := float) in
  let q1 := with_webWidth (3 * p1.(webWidth))%float p1 in
  let q2 := with_wastePerStopM (3 * p2.(wastePerStopM))%float p2 in
  let q3 := with_substratePrice (1.1 * p3.(substratePrice))%float p3 in
  (computeROI q1).(m2PerStop) = 60.00000000000001%float /\
  (3 * (computeROI p1).(m2PerStop))%float = 60%float /\
  (computeROI q2).(m2PerStop) = 103.95%float /\
  (3 * (computeROI p2).(m2PerStop))%float = 103.94999999999999%float /\
  (computeROI q3).(euroTotal) = 243064.79999999999%float /\
  (1.1 * (computeROI p3).(euroTotal))%float = 243064.80000000002%float /\
  PrimFloat.eqb (computeROI q1).(m2PerStop)
                (3 * (computeROI p1).(m2PerStop))%float = false /\
  PrimFloat.eqb (computeROI q2).(m2PerStop)
                (3 * (computeROI p2).(m2PerStop))%float = false /\
  PrimFloat.eqb (computeROI q3).(euroTotal)
                (1.1 * (computeROI p3).(euroTotal))%float = false.
Proof. repeat split. Qed.

(** *** Scaling by a power of two

    Multiplying a binary64 number by [2^n] moves its exponent and leaves its
    significand alone, and rounding does not see the exponent as long as the
    result stays a normal number.  So a product, or a sum, of scaled numbers
    is the scaled product, or sum. *)

Section PowersOfTwo.
Local Open Scope Z_scope.

Lemma prec_val : prec = 53. Proof. reflexivity. Qed.
Lemma emax_val : emax = 1024. Proof. reflexivity. Qed.

Lemma digits2_pos_shift52 (m : positive) :
  Z.pos (digits2_pos (4503599627370496 * m)) = Z.pos (digits2_pos m) + 52.
Proof. cbn [Pos.mul digits2_pos]. lia. Qed.

Lemma iter_shr_52 (m : positive) :
  iter_pos shr_1 52 (Build_shr_record (Z.pos (4503599627370496 * m)) false false)
  = Build_shr_record (Z.pos m) false false.
Proof. reflexivity. Qed.

Lemma shr_fexp_pow2 (my : positive) (ey n : Z) :
  fexp prec emax (Z.pos (digits2_pos my) + (ey + n)) = ey + n ->
  shr_fexp prec emax (Z.pos (4503599627370496 * my)) (n - 52 + ey) loc_Exact
  = (Build_shr_record (Z.pos my) false false, ey + n).
Proof.
  intros Hc. unfold shr_fexp. cbn [Zdigits2 shr_record_of_loc].
  rewrite digits2_pos_shift52.
  replace (Z.pos (digits2_pos my) + 52 + (n - 52 + ey))
    with (Z.pos (digits2_pos my) + (ey + n)) by lia.
  rewrite Hc.
  replace (ey + n - (n - 52 + ey)) with 52 by lia.
  cbn [shr]. rewrite iter_shr_52. f_equal. lia.
Qed.

Lemma shr_fexp_canonical (m : positive) (e : Z) :
  fexp prec emax (Z.pos (digits2_pos m) + e) = e ->
  shr_fexp prec emax (Z.pos m) e loc_Exact
  = (Build_shr_record (Z.pos m) false false, e).
Proof.
  intros Hc. unfold shr_fexp. cbn [Zdigits2 shr_record_of_loc].
  now rewrite Hc, Z.sub_diag.
Qed.

Lemma SFmul_pow2 (sk sy : bool) (my : positive) (ey n : Z) :
  bounded prec emax my (ey + n) = true ->
  SF64mul (S754_finite sk 4503599627370496 (n - 52)) (S754_finite sy my ey)
  = S754_finite (xorb sk sy) my (ey + n).
Proof.
  unfold bounded, canonical_mantissa. rewrite andb_true_iff, Z.eqb_eq.
  intros [Hc Hb].
  unfold SF64mul, SFmul, binary_round_aux.
  rewrite (shr_fexp_pow2 my ey n Hc).
  cbn [shr_m loc_of_shr_record shr_r shr_s round_nearest_even].
  rewrite (shr_fexp_canonical my (ey + n) Hc). cbn [shr_m].
  now rewrite Hb.
Qed.

Lemma emin_val : SpecFloat.emin prec emax = -1074. Proof. reflexivity. Qed.

Lemma shr_fexp_shift (m e n : Z) (l : location) :
  -1074 <= e -> -1074 <= e + n ->
  shr_fexp prec emax m (e + n) l
  = (fst (shr_fexp prec emax m e l), snd (shr_fexp prec emax m e l) + n)
  /\ e <= snd (shr_fexp prec emax m e l).
Proof.
  intros He Hen. unfold shr_fexp, shr, fexp. rewrite emin_val, prec_val.
  set (d := Zdigits2 m). set (rec := shr_record_of_loc m l).
  destruct (Z.max (d + e - 53) (-1074) - e) as [|p|p] eqn:Ht;
    destruct (Z.max (d + (e + n) - 53) (-1074) - (e + n)) as [|q|q] eqn:Ht';
    cbn [fst snd]; try (exfalso; lia); try (split; [reflexivity|lia]).
  assert (q = p) as -> by lia. split; [f_equal; lia|lia].
Qed.

Lemma binary_round_aux_shift (s s0 s' : bool) (M E n : Z) (l : location)
    (m : positive) (e : Z) :
  -1074 <= E -> -1074 <= E + n ->
  binary_round_aux prec emax s M E l = S754_finite s0 m e ->
  e + n <= emax - prec ->
  binary_round_aux prec emax s' M (E + n) l = S754_finite s' m (e + n)
  /\ s0 = s /\ E <= e.
Proof.
  intros HE HEn. unfold binary_round_aux.
  destruct (shr_fexp_shift M E n l HE HEn) as [E1 L1].
  rewrite E1.
  destruct (shr_fexp prec emax M E l) as [mrs' e']. cbn [fst snd] in *.
  set (m1 := round_nearest_even (shr_m mrs') (loc_of_shr_record mrs')).
  destruct (shr_fexp_shift m1 e' n loc_Exact) as [E2 L2]; [lia|lia|].
  rewrite E2.
  destruct (shr_fexp prec emax m1 e' loc_Exact) as [mrs'' e''].
  cbn [fst snd] in *.
  destruct (shr_m mrs'') as [|mm|mm]; try discriminate.
  destruct (Z.leb e'' (emax - prec)) eqn:Hle; try discriminate.
  intros H Hov. injection H as -> -> ->.
  split; [|split; [reflexivity|lia]].
  assert (Hle' : Z.leb (e + n) (emax - prec) = true)
    by (apply Z.leb_le; exact Hov).
  now rewrite Hle'.
Qed.

Lemma SFmul_shift_l (sx sx' sy s : bool) (mx my m : positive) (ex ey e n : Z) :
  -1074 <= ex + ey -> -1074 <= ex + ey + n ->
  SF64mul (S754_finite sx mx ex) (S754_finite sy my ey) = S754_finite s m e ->
  e + n <= emax - prec ->
  SF64mul (S754_finite sx' mx (ex + n)) (S754_finite sy my ey)
  = S754_finite (xorb sx' sy) m (e + n).
Proof.
  intros H1 H2 H Hov. unfold SF64mul, SFmul in *.
  replace (ex + n + ey) with (ex + ey + n) by lia.
  now destruct (binary_round_aux_shift _ _ (xorb sx' sy) _ _ n _ _ _ H1 H2 H Hov).
Qed.

Lemma SFmul_shift_r (sx sy sy' s : bool) (mx my m : positive) (ex ey e n : Z) :
  -1074 <= ex + ey -> -1074 <= ex + ey + n ->
  SF64mul (S754_finite sx mx ex) (S754_finite sy my ey) = S754_finite s m e ->
  e + n <= emax - prec ->
  SF64mul (S754_finite sx mx ex) (S754_finite sy' my (ey + n))
  = S754_finite (xorb sx sy') m (e + n).
Proof.
  intros H1 H2 H Hov. unfold SF64mul, SFmul in *.
  replace (ex + (ey + n)) with (ex + ey + n) by lia.
  now destruct (binary_round_aux_shift _ _ (xorb sx sy') _ _ n _ _ _ H1 H2 H Hov).
Qed.

Lemma SFmul_sign (sx sy s : bool) (mx my m : positive) (ex ey e : Z) :
  SF64mul (S754_finite sx mx ex) (S754_finite sy my ey) = S754_finite s m e ->
  s = xorb sx sy.
Proof.
  unfold SF64mul, SFmul. intros H.
  destruct (binary_round_aux_cases (xorb sx sy) (Z.pos (mx * my)) (ex + ey)
              loc_Exact) as [E|[E|[E|(m' & e' & E)]]];
    cbv zeta in E; rewrite E in H; congruence.
Qed.

Lemma binary_round_shift (s s0 s' : bool) (p m : positive) (e0 e n : Z) :
  -1021 <= e0 -> -1021 <= e0 + n ->
  binary_round prec emax s p e0 = S754_finite s0 m e ->
  e + n <= emax - prec ->
  binary_round prec emax s' p (e0 + n) = S754_finite s' m (e + n).
Proof.
  intros H0 Hn. unfold binary_round, shl_align, fexp.
  rewrite emin_val, prec_val.
  set (dp := Z.pos (digits2_pos p)).
  assert (Hd : 1 <= dp) by (unfold dp; lia).
  replace (Z.max (dp + e0 - 53) (-1074)) with (dp + e0 - 53) by lia.
  replace (Z.max (dp + (e0 + n) - 53) (-1074)) with (dp + e0 - 53 + n) by lia.
  replace (dp + e0 - 53 + n - (e0 + n)) with (dp + e0 - 53 - e0) by lia.
  destruct (dp + e0 - 53 - e0) as [|d|d] eqn:Ht; intros H Hov.
  - assert (H1 : -1074 <= e0) by lia. assert (H2 : -1074 <= e0 + n) by lia.
    now destruct (binary_round_aux_shift _ _ s' _ _ n _ _ _ H1 H2 H Hov).
  - assert (H1 : -1074 <= e0) by lia. assert (H2 : -1074 <= e0 + n) by lia.
    now destruct (binary_round_aux_shift _ _ s' _ _ n _ _ _ H1 H2 H Hov).
  - assert (H1 : -1074 <= dp + e0 - 53) by lia.
    assert (H2 : -1074 <= dp + e0 - 53 + n) by lia.
    now destruct (binary_round_aux_shift _ _ s' _ _ n _ _ _ H1 H2 H Hov).
Qed.

Lemma shl_align_shift (m : positive) (e e' n : Z) :
  fst (shl_align m (e + n) (e' + n)) = fst (shl_align m e e').
Proof.
  unfold shl_align. replace (e' + n - (e + n)) with (e' - e) by lia.
  now destruct (e' - e).
Qed.

Lemma binary_round_sign (s s0 : bool) (p m : positive) (e0 e : Z) :
  binary_round prec emax s p e0 = S754_finite s0 m e -> s0 = s.
Proof.
  unfold binary_round. destruct (shl_align p e0 _) as [mz ez].
  destruct (binary_round_aux_cases s (Z.pos mz) ez loc_Exact)
    as [E|[E|[E|(m' & e' & E)]]]; cbv zeta in E; rewrite E; congruence.
Qed.

Lemma binary_normalize_shift (sk : bool) (z : Z) (m : positive) (s0 : bool)
    (e0 e n : Z) :
  -1021 <= e0 -> -1021 <= e0 + n ->
  binary_normalize prec emax z e0 false = S754_finite s0 m e ->
  e + n <= emax - prec ->
  binary_normalize prec emax (cond_Zopp sk z) (e0 + n) false
  = S754_finite (xorb sk s0) m (e + n).
Proof.
  intros H0 Hn H Hov. destruct z as [|p|p]; cbn [binary_normalize] in H.
  - discriminate.
  - rewrite (binary_round_sign _ _ _ _ _ _ H).
    destruct sk; cbn [cond_Zopp Z.opp binary_normalize xorb];
      apply (binary_round_shift _ _ _ _ _ _ _ n H0 Hn H Hov).
  - rewrite (binary_round_sign _ _ _ _ _ _ H).
    destruct sk; cbn [cond_Zopp Z.opp binary_normalize xorb negb];
      apply (binary_round_shift _ _ _ _ _ _ _ n H0 Hn H Hov).
Qed.

Lemma cond_Zopp_xorb (sk s : bool) (z : Z) :
  cond_Zopp (xorb sk s) z = cond_Zopp sk (cond_Zopp s z).
Proof. destruct sk, s; cbn [xorb cond_Zopp negb]; lia. Qed.

Lemma cond_Zopp_add (sk : bool) (a b : Z) :
  cond_Zopp sk a + cond_Zopp sk b = cond_Zopp sk (a + b).
Proof. destruct sk; cbn [cond_Zopp]; lia. Qed.

Lemma SFadd_shift (sk sx sy s : bool) (mx my m : positive) (ex ey e n : Z) :
  -1021 <= Z.min ex ey -> -1021 <= Z.min ex ey + n ->
  SF64add (S754_finite sx mx ex) (S754_finite sy my ey) = S754_finite s m e ->
  e + n <= emax - prec ->
  SF64add (S754_finite (xorb sk sx) mx (ex + n))
          (S754_finite (xorb sk sy) my (ey + n))
  = S754_finite (xorb sk s) m (e + n).
Proof.
  intros H0 Hn H Hov. unfold SF64add, SFadd in *. cbv zeta in *.
  rewrite Z.add_min_distr_r, !shl_align_shift, !cond_Zopp_xorb, cond_Zopp_add.
  now apply binary_normalize_shift.
Qed.

Lemma isPowerOfTwo_spec (k : float) (n : Z) :
  isPowerOfTwo k n = true ->
  exists sk, Prim2SF k = S754_finite sk 4503599627370496 (n - 52).
Proof.
  unfold isPowerOfTwo. destruct (Prim2SF k) as [s|s| |s m e]; try discriminate.
  rewrite andb_true_iff, Pos.eqb_eq, Z.eqb_eq. intros [-> ->]. now exists s.
Qed.

Lemma scalable_spec (n : Z) (x : float) :
  scalable n x = true ->
  exists s m e, Prim2SF x = S754_finite s m e /\ digits2_pos m = 53%positive
                /\ -537 <= e <= 971 /\ -537 <= e + n <= 971.
Proof.
  unfold scalable, isNormal, exponentOf.
  destruct (Prim2SF x) as [s|s| |s m e]; try discriminate.
  rewrite !andb_true_iff, Pos.eqb_eq, !Z.leb_le.
  intros [[[[Hd H1] H2] H3] H4]. exists s, m, e. repeat split; assumption.
Qed.

Lemma bounded_normal (m : positive) (e : Z) :
  digits2_pos m = 53%positive -> -1074 <= e <= 971 ->
  bounded prec emax m e = true.
Proof.
  intros Hd He. unfold bounded, canonical_mantissa, fexp.
  rewrite Hd, emin_val, prec_val, emax_val, andb_true_iff, Z.eqb_eq, Z.leb_le.
  lia.
Qed.

Lemma mul_scale_l (k x y : float) (n : Z) :
  isPowerOfTwo k n = true ->
  scalable n x = true -> scalable 0 y = true -> scalable n (x * y) = true ->
  (k * x * y = k * (x * y))%float.
Proof.
  intros Hk Hx Hy Hr.
  destruct (isPowerOfTwo_spec k n Hk) as [sk Ek].
  destruct (scalable_spec n x Hx) as (sx & mx & ex & Ex & Dx & Rx & Rxn).
  destruct (scalable_spec 0 y Hy) as (sy & my & ey & Ey & Dy & Ry & _).
  destruct (scalable_spec n _ Hr) as (sr & mr & er & Er & Dr & Rr & Rrn).
  rewrite mul_spec, Ex, Ey in Er.
  apply Prim2SF_inj. rewrite !mul_spec, Ek, Ex, Ey, Er.
  rewrite (SFmul_pow2 sk sx mx ex n) by (apply bounded_normal; [assumption|lia]).
  rewrite (SFmul_pow2 sk sr mr er n) by (apply bounded_normal; [assumption|lia]).
  rewrite (SFmul_shift_l sx (xorb sk sx) sy sr mx my mr ex ey er n)
    by (assumption || (rewrite ?prec_val, ?emax_val; lia)).
  rewrite (SFmul_sign _ _ _ _ _ _ _ _ _ Er).
  now rewrite xorb_assoc.
Qed.

Lemma mul_scale_r (k x y : float) (n : Z) :
  isPowerOfTwo k n = true ->
  scalable 0 x = true -> scalable n y = true -> scalable n (x * y) = true ->
  (x * (k * y) = k * (x * y))%float.
Proof.
  intros Hk Hx Hy Hr.
  destruct (isPowerOfTwo_spec k n Hk) as [sk Ek].
  destruct (scalable_spec 0 x Hx) as (sx & mx & ex & Ex & Dx & Rx & _).
  destruct (scalable_spec n y Hy) as (sy & my & ey & Ey & Dy & Ry & Ryn).
  destruct (scalable_spec n _ Hr) as (sr & mr & er & Er & Dr & Rr & Rrn).
  rewrite mul_spec, Ex, Ey in Er.
  apply Prim2SF_inj. rewrite !mul_spec, Ek, Ex, Ey, Er.
  rewrite (SFmul_pow2 sk sy my ey n) by (apply bounded_normal; [assumption|lia]).
  rewrite (SFmul_pow2 sk sr mr er n) by (apply bounded_normal; [assumption|lia]).
  rewrite (SFmul_shift_r sx sy (xorb sk sy) sr mx my mr ex ey er n)
    by (assumption || (rewrite ?prec_val, ?emax_val; lia)).
  rewrite (SFmul_sign _ _ _ _ _ _ _ _ _ Er).
  f_equal. now destruct sk, sx, sy.
Qed.

Lemma add_mul_scale (k a b x : float) (n : Z) :
  isPowerOfTwo k n = true ->
  scalable 0 a = true -> scalable 0 b = true -> scalable n x = true ->
  scalable n (a * x) = true -> scalable n (b * x) = true ->
  scalable n (a * x + b * x) = true ->
  (a * (k * x) + b * (k * x) = k * (a * x + b * x))%float.
Proof.
  intros Hk Ha Hb Hx Hax Hbx Hs.
  rewrite (mul_scale_r k a x n Hk Ha Hx Hax).
  rewrite (mul_scale_r k b x n Hk Hb Hx Hbx).
  destruct (isPowerOfTwo_spec k n Hk) as [sk Ek].
  destruct (scalable_spec n _ Hax) as (s1 & m1 & e1 & E1 & D1 & R1 & R1n).
  destruct (scalable_spec n _ Hbx) as (s2 & m2 & e2 & E2 & D2 & R2 & R2n).
  destruct (scalable_spec n _ Hs) as (s3 & m3 & e3 & E3 & D3 & R3 & R3n).
  rewrite add_spec, E1, E2 in E3.
  apply Prim2SF_inj. rewrite add_spec, !(mul_spec k), Ek, E1, E2, add_spec, E1, E2, E3.
  rewrite (SFmul_pow2 sk s1 m1 e1 n) by (apply bounded_normal; [assumption|lia]).
  rewrite (SFmul_pow2 sk s2 m2 e2 n) by (apply bounded_normal; [assumption|lia]).
  rewrite (SFmul_pow2 sk s3 m3 e3 n) by (apply bounded_normal; [assumption|lia]).
  apply SFadd_shift; rewrite ?prec_val, ?emax_val; (assumption || lia).
Qed.

End PowersOfTwo.

(** C8, as the code has it: in binary64 the proportionality is exact for the
    factors that are powers of two.  For [k] equal to [2^n] or [-2^n]:
    scaling [webWidth], or [wastePerStopM], by [k] scales [m2PerStop] by
    exactly [k], and scaling [substratePrice] by [k] scales [euroTotal] by
    exactly [k], the other inputs being kept, as long as the numbers
    involved and their multiples by [k] are normal numbers of magnitude at
    least [2^-485] (no underflow, no overflow).  For other factors the
    products are rounded differently on the two sides, as
    [proportionality_rounding] shows for [k = 3] and [k = 1.1]. *)
Theorem proportionality_pow2 (k : float) (n : Z) (p : ROIParams float) :
  isPowerOfTwo k n = true ->
  let r := computeROI p in
  (scalable n p.(webWidth) = true -> scalable 0 p.(wastePerStopM) = true ->
   scalable n r.(m2PerStop) = true ->
   (computeROI (with_webWidth (k * p.(webWidth))%float p)).(m2PerStop)
   = (k * r.(m2PerStop))%float) /\
  (scalable 0 p.(webWidth) = true -> scalable n p.(wastePerStopM) = true ->
   scalable n r.(m2PerStop) = true ->
   (computeROI (with_wastePerStopM (k * p.(wastePerStopM))%float p)).(m2PerStop)
   = (k * r.(m2PerStop))%float) /\
  (scalable 0 r.(m2CalagePerYear) = true ->
   scalable 0 r.(m2ThreeMmPerYear) = true ->
   scalable n p.(substratePrice) = true ->
   scalable n r.(euroCalage) = true -> scalable n r.(euroThreeMm) = true ->
   scalable n r.(euroTotal) = true ->
   (computeROI (with_substratePrice (k * p.(substratePrice))%float p)).(euroTotal)
   = (k * r.(euroTotal))%float).
Proof.
  intros Hk r. subst r. split; [|split].
  - apply (mul_scale_l k _ _ n Hk).
  - apply (mul_scale_r k _ _ n Hk).
  - apply (add_mul_scale k _ _ _ n Hk).
Qed.

Lemma proportionality_pow2_witness :
  let p := baselineParams (num := float) in
  (computeROI (with_webWidth (2 * p.(webWidth))%float p)).(m2PerStop)
  = (2 * (computeROI p).(m2PerStop))%float /\
  (computeROI (with_wastePerStopM (2 * p.(wastePerStopM))%float p)).(m2PerStop)
  = (2 * (computeROI p).(m2PerStop))%float /\
  (computeROI (with_substratePrice (2 * p.(substratePrice))%float p)).(euroTotal)
  = (2 * (computeROI p).(euroTotal))%float.
Proof.
  destruct (proportionality_pow2 2%float 1 baselineParams eq_refl)
    as (H1 & H2 & H3).
  split; [|split].
  - exact (H1 eq_refl eq_refl eq_refl).
  - exact (H2 eq_refl eq_refl eq_refl).
  - exact (H3 eq_refl eq_refl eq_refl eq_refl eq_refl eq_refl).
Defined.

(** The formulas themselves are linear: read over the rationals, which is
    not the arithmetic the program runs, the three proportionalities hold
    for every factor. *)
Lemma proportionality_exact (k : Qc) (p : ROIParams Qc) :
  (computeROI (with_webWidth (k * p.(webWidth))%Qc p)).(m2PerStop)
    = (k * (computeROI p).(m2PerStop))%Qc /\
  (computeROI (with_wastePerStopM (k * p.(wastePerStopM))%Qc p)).(m2PerStop)
    = (k * (computeROI p).(m2PerStop))%Qc /\
  (computeROI (with_substratePrice (k * p.(substratePrice))%Qc p)).(euroTotal)
    = (k * (computeROI p).(euroTotal))%Qc.
Proof.
  unfold computeROI, stopsAvoidedPerJob, printedLengthPerDay, minutesPerDay.
  destruct p; cbn. unfold Qcdiv. repeat split; ring.
Qed.

(** * Further properties *)

(** ** Rounding never invents a NaN *)

Lemma shr_1_nonneg (mrs : shr_record) :
  (0 <= shr_m mrs)%Z -> (0 <= shr_m (shr_1 mrs))%Z.
Proof.
  destruct mrs as [m r s]. cbn [shr_m].
  destruct m as [|p|p]; [| |lia]; intros _.
  - discriminate.
  - destruct p; cbn; lia.
Qed.

Lemma iter_pos_shr_1_nonneg (p : positive) (mrs : shr_record) :
  (0 <= shr_m mrs)%Z -> (0 <= shr_m (iter_pos shr_1 p mrs))%Z.
Proof.
  revert mrs. induction p as [p IH|p IH|]; intros mrs Hm; cbn [iter_pos].
  - apply IH, IH, shr_1_nonneg, Hm.
  - apply IH, IH, Hm.
  - apply shr_1_nonneg, Hm.
Qed.

Lemma shr_fexp_nonneg (m e : Z) (l : location) :
  (0 <= m)%Z -> (0 <= shr_m (fst (shr_fexp prec emax m e l)))%Z.
Proof.
  intros Hm. unfold shr_fexp, shr.
  assert (H0 : (0 <= shr_m (shr_record_of_loc m l))%Z)
    by (destruct l as [|[]]; exact Hm).
  destruct (fexp prec emax (Zdigits2 m + e) - e)%Z; cbn [fst]; auto.
  now apply iter_pos_shr_1_nonneg.
Qed.

Lemma round_nearest_even_nonneg (m : Z) (l : location) :
  (0 <= m)%Z -> (0 <= round_nearest_even m l)%Z.
Proof.
  intros Hm. destruct l as [|[]]; cbn; try lia. destruct (Z.even m); lia.
Qed.

Lemma binary_round_aux_not_nan (sx : bool) (mx ex : Z) (lx : location) :
  (0 <= mx)%Z -> binary_round_aux prec emax sx mx ex lx <> S754_nan.
Proof.
  intros Hm. unfold binary_round_aux.
  pose proof (shr_fexp_nonneg mx ex lx Hm) as H1.
  destruct (shr_fexp prec emax mx ex lx) as [mrs' e']. cbn [fst] in H1.
  pose proof (shr_fexp_nonneg _ e' loc_Exact
                (round_nearest_even_nonneg _ (loc_of_shr_record mrs') H1))
    as H2.
  destruct (shr_fexp prec emax _ e' loc_Exact) as [mrs'' e'']. cbn [fst] in H2.
  destruct (shr_m mrs'') as [|m|m]; [discriminate| |lia].
  destruct (Z.leb e'' (emax - prec)); discriminate.
Qed.

Lemma SFmul_fin_notneg_leb (x y : spec_float) :
  B64.SFfin x = true -> B64.SFfin y = true ->
  B64.SFnotneg x = true -> B64.SFnotneg y = true ->
  SFleb (S754_zero false) (SF64mul x y) = true.
Proof.
  destruct x as [sx|sx| |sx mx ex], y as [sy|sy| |sy my ey];
    try discriminate; intros _ _; cbn [B64.SFnotneg SF64mul SFmul];
    try reflexivity.
  destruct sx, sy; try discriminate. intros _ _. cbn [xorb].
  pose proof (binary_round_aux_not_nan false (Z.pos (mx * my)) (ex + ey)
                loc_Exact ltac:(lia)) as Hn.
  destruct (binary_round_aux_cases false (Z.pos (mx * my)) (ex + ey) loc_Exact)
    as [E|[E|[E|(m & e & E)]]]; cbv zeta in E; rewrite E in *;
    [congruence|reflexivity..].
Qed.

(** ** [approxEqual] on binary64 *)

Lemma isNaN_spec (x : float) :
  B64.isNaN x = match Prim2SF x with S754_nan => true | _ => false end.
Proof.
  unfold B64.isNaN. rewrite FloatAxioms.eqb_spec.
  destruct (Prim2SF x) as [s|s| |s m e] eqn:E; try reflexivity;
    rewrite SFeqb_refl; (reflexivity || discriminate).
Qed.

(** What the body of [approxEqual] is, on specifications. *)
Lemma approxEqual_spec (actual expected tol : float) :
  approxEqual actual expected tol
  = SFleb (SFabs (SF64sub (Prim2SF actual) (Prim2SF expected)))
          (SF64mul (SFabs (Prim2SF expected)) (Prim2SF tol)).
Proof.
  unfold approxEqual. cbv zeta. unfold leb, abs, sub, mul, float_Arith.
  now rewrite FloatAxioms.leb_spec, mul_spec, !abs_spec, sub_spec.
Qed.

Lemma lit_0_001_float :
  Prim2SF (lit (num := float) 0.001)
  = S754_finite false 4611686018427388 (-62).
Proof. reflexivity. Qed.

(** X1: A NaN on either side fails the check, whatever the tolerance. *)
Theorem approxEqual_rejects_NaN (actual expected tol : float) :
  B64.isNaN actual = true \/ B64.isNaN expected = true ->
  approxEqual actual expected tol = false.
Proof.
  rewrite !isNaN_spec, approxEqual_spec.
  destruct (Prim2SF actual) as [s|s| |s m e],
           (Prim2SF expected) as [s'|s'| |s' m' e'];
    intros [H|H]; try discriminate H; reflexivity.
Qed.

Lemma approxEqual_rejects_NaN_witness :
  approxEqual nan 297000%float (lit 0.001) = false.
Proof.
  apply (approxEqual_rejects_NaN nan 297000%float (lit 0.001)).
  left. reflexivity.
Defined.

(** X2: A value passes the default check against itself exactly when it is
    finite: neither infinity agrees with itself. *)
Theorem approxEqual_self (x : float) :
  approxEqual_default x x = true <-> B64.isFinite x = true.
Proof.
  unfold approxEqual_default.
  rewrite approxEqual_spec, isFinite_spec, lit_0_001_float.
  destruct (Prim2SF x) as [s|s| |s m e].
  - now destruct s.
  - now destruct s.
  - easy.
  - split; [reflexivity|intros _].
    assert (Hs : SF64sub (S754_finite s m e) (S754_finite s m e)
                 = S754_zero false).
    { unfold SF64sub, SFsub. now rewrite Z.sub_diag. }
    rewrite Hs. cbn [SFabs].
    now apply SFmul_fin_notneg_leb.
Qed.

(** X3: Against an infinite expected value the default tolerance is infinite
    too: every actual value passes, save NaN and that same infinity. *)
Theorem approxEqual_infinite_expected (actual expected : float) :
  isInfinite expected = true ->
  approxEqual_default actual expected
  = negb (B64.isNaN actual) && negb (PrimFloat.eqb actual expected).
Proof.
  unfold approxEqual_default, isInfinite.
  rewrite approxEqual_spec, isNaN_spec, FloatAxioms.eqb_spec, lit_0_001_float.
  destruct (Prim2SF expected) as [s'|s'| |s' m' e']; try discriminate.
  intros _.
  destruct (Prim2SF actual) as [s|s| |s m e]; try reflexivity;
    destruct s, s'; reflexivity.
Qed.

Lemma approxEqual_infinite_expected_witness :
  approxEqual_default 5%float infinity
  = negb (B64.isNaN 5%float) && negb (PrimFloat.eqb 5%float infinity).
Proof.
  apply (approxEqual_infinite_expected 5%float infinity). reflexivity.
Defined.

Lemma binary_round_aux_abs (mx ex : Z) (lx : location) :
  SFabs (binary_round_aux prec emax true mx ex lx)
  = SFabs (binary_round_aux prec emax false mx ex lx).
Proof.
  unfold binary_round_aux.
  destruct (shr_fexp prec emax mx ex lx) as [mrs' e'].
  destruct (shr_fexp prec emax _ e' loc_Exact) as [mrs'' e''].
  destruct (shr_m mrs'') as [|m|m]; try reflexivity.
  now destruct (Z.leb e'' (emax - prec)).
Qed.

Lemma binary_normalize_abs_opp (z e : Z) :
  SFabs (binary_normalize prec emax (- z) e false)
  = SFabs (binary_normalize prec emax z e false).
Proof.
  destruct z as [|p|p]; cbn [Z.opp binary_normalize]; try reflexivity;
    unfold binary_round; destruct (shl_align p e _) as [mz ez];
    [|symmetry]; apply binary_round_aux_abs.
Qed.

Lemma SFsub_abs_opp (x y : spec_float) :
  SFabs (SF64sub (SFopp x) (SFopp y)) = SFabs (SF64sub x y).
Proof.
  destruct x as [sx|sx| |sx mx ex], y as [sy|sy| |sy my ey];
    try reflexivity; try (now destruct sx, sy).
  unfold SF64sub. cbn [SFopp SFsub]. cbv zeta.
  rewrite <- binary_normalize_abs_opp. f_equal. f_equal.
  destruct sx, sy; cbn [negb cond_Zopp]; lia.
Qed.

(** X4: Changing the sign of both values does not change the verdict. *)
Theorem approxEqual_opp (actual expected tol : float) :
  approxEqual (- actual)%float (- expected)%float tol
  = approxEqual actual expected tol.
Proof.
  rewrite !approxEqual_spec, !opp_spec, SFsub_abs_opp.
  now destruct (Prim2SF expected).
Qed.

(** ** The engine: what each figure depends on *)

Section Frames.
Context {num : Type} {A : Arith num}.

(** X6: The makeready figures read the web width, the job cadence, the stops and
    the price, and nothing of the press speed, the uptime or the shift
    length; the figures of the 3 mm gain read the speed, the uptime, the
    shift pattern and the price, and nothing of the web width, the jobs or
    the stops; and only [euroNet] reads [haasPrice]. *)
Theorem computeROI_frames (p q : ROIParams num) :
  (p.(webWidth) = q.(webWidth) ->
   p.(jobsPerShift) = q.(jobsPerShift) ->
   p.(shiftsPerDay) = q.(shiftsPerDay) ->
   p.(daysPerYear) = q.(daysPerYear) ->
   p.(stopsPerJobBaseline) = q.(stopsPerJobBaseline) ->
   p.(reductionPercent) = q.(reductionPercent) ->
   p.(wastePerStopM) = q.(wastePerStopM) ->
   p.(substratePrice) = q.(substratePrice) ->
   (computeROI p).(jobsPerDay) = (computeROI q).(jobsPerDay) /\
   (computeROI p).(jobsPerYear) = (computeROI q).(jobsPerYear) /\
   (computeROI p).(m2PerStop) = (computeROI q).(m2PerStop) /\
   (computeROI p).(m2CalagePerYear) = (computeROI q).(m2CalagePerYear) /\
   (computeROI p).(euroCalage) = (computeROI q).(euroCalage)) /\
  (p.(speedMPerMin) = q.(speedMPerMin) ->
   p.(uptimePercent) = q.(uptimePercent) ->
   p.(hoursPerShift) = q.(hoursPerShift) ->
   p.(shiftsPerDay) = q.(shiftsPerDay) ->
   p.(daysPerYear) = q.(daysPerYear) ->
   p.(substratePrice) = q.(substratePrice) ->
   (computeROI p).(printedLengthPerYear)
     = (computeROI q).(printedLengthPerYear) /\
   (computeROI p).(m2ThreeMmPerYear) = (computeROI q).(m2ThreeMmPerYear) /\
   (computeROI p).(euroThreeMm) = (computeROI q).(euroThreeMm)).
Proof.
  unfold computeROI, stopsAvoidedPerJob, printedLengthPerDay, minutesPerDay.
  destruct p, q; cbn. split; intros; subst; repeat split.
Qed.

End Frames.

(** A line twice as wide, with other jobs and stops, prints the same length
    and gains the same from the 3 mm; a faster line saves the same
    makeready. *)
Lemma computeROI_frames_witness :
  let p := baselineParams (num := float) in
  let q := with_speedMPerMin 200%float p in
  let q' := with_webWidth 0.66%float (with_reductionPercent 80%float p) in
  ((computeROI p).(jobsPerDay) = (computeROI q).(jobsPerDay) /\
   (computeROI p).(jobsPerYear) = (computeROI q).(jobsPerYear) /\
   (computeROI p).(m2PerStop) = (computeROI q).(m2PerStop) /\
   (computeROI p).(m2CalagePerYear) = (computeROI q).(m2CalagePerYear) /\
   (computeROI p).(euroCalage) = (computeROI q).(euroCalage)) /\
  ((computeROI p).(printedLengthPerYear)
     = (computeROI q').(printedLengthPerYear) /\
   (computeROI p).(m2ThreeMmPerYear) = (computeROI q').(m2ThreeMmPerYear) /\
   (computeROI p).(euroThreeMm) = (computeROI q').(euroThreeMm)).
Proof.
  intros p q q'. split.
  - apply (proj1 (computeROI_frames p q)); reflexivity.
  - apply (proj2 (computeROI_frames p q')); reflexivity.
Defined.

(** ** The colour of the net

    [euroNet] is [euroTotal - haasPrice], and the page shows it green when
    [euroNet >= 0].  In binary64 a difference of two finite numbers has the
    sign of their comparison: small differences are exact, none rounds to
    zero. *)

Section SignOfDifference.
Local Open Scope Z_scope.

Lemma digits2_pos_bounds (m : positive) :
  2 ^ (Z.pos (digits2_pos m) - 1) <= Z.pos m < 2 ^ Z.pos (digits2_pos m).
Proof.
  induction m as [m IH|m IH|]; cbn [digits2_pos].
  - rewrite Pos2Z.inj_succ.
    replace (Z.succ (Z.pos (digits2_pos m)) - 1)
      with (Z.succ (Z.pos (digits2_pos m) - 1)) by lia.
    rewrite !Z.pow_succ_r by lia. lia.
  - rewrite Pos2Z.inj_succ.
    replace (Z.succ (Z.pos (digits2_pos m)) - 1)
      with (Z.succ (Z.pos (digits2_pos m) - 1)) by lia.
    rewrite !Z.pow_succ_r by lia. lia.
  - cbn. lia.
Qed.

Lemma shr_1_div (mrs : shr_record) :
  0 <= shr_m mrs -> shr_m (shr_1 mrs) = shr_m mrs / 2.
Proof.
  destruct mrs as [m r s]. cbn [shr_m]. intros Hm.
  destruct m as [|p|p]; [reflexivity| |lia].
  destruct p as [p|p|]; cbn [shr_1 shr_m].
  - rewrite Pos2Z.inj_xI. apply (Z.div_unique _ _ _ 1); lia.
  - rewrite Pos2Z.inj_xO. apply (Z.div_unique _ _ _ 0); lia.
  - reflexivity.
Qed.

Lemma pow2_xI (n : positive) : 2 ^ Z.pos n~1 = 2 * (2 ^ Z.pos n * 2 ^ Z.pos n).
Proof.
  replace (Z.pos n~1) with (1 + (Z.pos n + Z.pos n)) by lia.
  rewrite !Z.pow_add_r by lia. reflexivity.
Qed.

Lemma pow2_xO (n : positive) : 2 ^ Z.pos n~0 = 2 ^ Z.pos n * 2 ^ Z.pos n.
Proof.
  replace (Z.pos n~0) with (Z.pos n + Z.pos n) by lia.
  rewrite !Z.pow_add_r by lia. reflexivity.
Qed.

Lemma iter_shr_1_div (n : positive) (mrs : shr_record) :
  0 <= shr_m mrs ->
  shr_m (iter_pos shr_1 n mrs) = shr_m mrs / 2 ^ Z.pos n.
Proof.
  revert mrs. induction n as [n IH|n IH|]; intros mrs Hm; cbn [iter_pos].
  - assert (Hp : 0 < 2 ^ Z.pos n) by (apply Z.pow_pos_nonneg; lia).
    rewrite IH by (apply iter_pos_shr_1_nonneg, shr_1_nonneg, Hm).
    rewrite IH by (apply shr_1_nonneg, Hm).
    rewrite shr_1_div by exact Hm.
    rewrite !Z.div_div by (try lia; apply Z.mul_pos_pos; lia).
    now rewrite pow2_xI.
  - assert (Hp : 0 < 2 ^ Z.pos n) by (apply Z.pow_pos_nonneg; lia).
    rewrite IH by (apply iter_pos_shr_1_nonneg, Hm).
    rewrite IH by exact Hm.
    rewrite !Z.div_div by lia.
    now rewrite pow2_xO.
  - now rewrite shr_1_div.
Qed.

Lemma shr_fexp_pos (p : positive) (e : Z) (l : location) :
  -1074 <= e ->
  0 < shr_m (fst (shr_fexp prec emax (Z.pos p) e l))
  /\ e <= snd (shr_fexp prec emax (Z.pos p) e l).
Proof.
  intros He. unfold shr_fexp, shr, fexp. cbn [Zdigits2].
  rewrite emin_val, prec_val.
  assert (H0 : shr_m (shr_record_of_loc (Z.pos p) l) = Z.pos p)
    by (destruct l as [|[]]; reflexivity).
  destruct (Z.max _ _ - e) as [|n|n] eqn:En; cbn [fst snd];
    [rewrite H0; lia| |rewrite H0; lia].
  rewrite iter_shr_1_div, H0 by (rewrite H0; lia).
  pose proof (digits2_pos_bounds p) as [Hl _].
  split; [|lia].
  apply Z.div_str_pos. split; [apply Z.pow_pos_nonneg; lia|].
  apply Z.le_trans with (2 := Hl). apply Z.pow_le_mono_r; lia.
Qed.

Lemma round_nearest_even_pos (m : Z) (l : location) :
  0 < m -> 0 < round_nearest_even m l.
Proof.
  intros Hm. destruct l as [|[]]; cbn; try lia. destruct (Z.even m); lia.
Qed.

Lemma binary_round_aux_nonzero (s s' : bool) (p : positive) (e : Z)
    (l : location) :
  -1074 <= e -> binary_round_aux prec emax s (Z.pos p) e l <> S754_zero s'.
Proof.
  intros He. unfold binary_round_aux.
  destruct (shr_fexp_pos p e l He) as [H1 H2].
  destruct (shr_fexp prec emax (Z.pos p) e l) as [mrs' e'].
  cbn [fst snd] in H1, H2.
  pose proof (round_nearest_even_pos _ (loc_of_shr_record mrs') H1) as H3.
  destruct (round_nearest_even _ _) as [|q|q]; try lia.
  destruct (shr_fexp_pos q e' loc_Exact ltac:(lia)) as [H4 _].
  destruct (shr_fexp prec emax (Z.pos q) e' loc_Exact) as [mrs'' e''].
  cbn [fst] in H4.
  destruct (shr_m mrs'') as [|m|m]; [lia| |discriminate].
  destruct (Z.leb e'' (emax - prec)); discriminate.
Qed.

Lemma binary_round_nonzero (s s' : bool) (p : positive) (e : Z) :
  -1074 <= e -> binary_round prec emax s p e <> S754_zero s'.
Proof.
  intros He. unfold binary_round, shl_align, fexp.
  rewrite emin_val, prec_val.
  destruct (Z.max _ _ - e) as [|d|d] eqn:Ed;
    apply binary_round_aux_nonzero; lia.
Qed.

Lemma bounded_facts (m : positive) (e : Z) :
  bounded prec emax m e = true ->
  -1074 <= e /\ Z.pos m < 2 ^ 53 /\ (-1074 < e -> 2 ^ 52 <= Z.pos m).
Proof.
  unfold bounded, canonical_mantissa, fexp.
  rewrite emin_val, prec_val, andb_true_iff, Z.eqb_eq. intros [Hc _].
  pose proof (digits2_pos_bounds m) as [Hl Hu].
  split; [lia|split].
  - apply Z.lt_le_trans with (1 := Hu). apply Z.pow_le_mono_r; lia.
  - intros He. replace 52 with (Z.pos (digits2_pos m) - 1) by lia. exact Hl.
Qed.

Lemma shl_align_value (m : positive) (e e' : Z) :
  e' <= e -> Z.pos (fst (shl_align m e e')) = Z.pos m * 2 ^ (e - e').
Proof.
  intros He. unfold shl_align.
  destruct (e' - e) as [|d|d] eqn:Ed; cbn [fst]; try lia.
  - replace (e - e') with 0 by lia. lia.
  - fold (shift_pos d m). rewrite shift_pos_correct, Z.pow_pos_fold.
    replace (e - e') with (Z.pos d) by lia. lia.
Qed.

(** Two numbers in canonical form compare as their significands do, once
    written with the same exponent. *)
Lemma SFleb_aligned (sx sy : bool) (mx my : positive) (ex ey : Z) :
  bounded prec emax mx ex = true -> bounded prec emax my ey = true ->
  SFleb (S754_finite sy my ey) (S754_finite sx mx ex)
  = (0 <=? cond_Zopp sx (Z.pos (fst (shl_align mx ex (Z.min ex ey))))
           - cond_Zopp sy (Z.pos (fst (shl_align my ey (Z.min ex ey))))).
Proof.
  intros Hx Hy.
  destruct (bounded_facts _ _ Hx) as (Hex & Hux & Hlx).
  destruct (bounded_facts _ _ Hy) as (Hey & Huy & Hly).
  rewrite !shl_align_value by lia.
  unfold SFleb, SFcompare.
  change (PosDef.Pos.compare_cont Eq my mx) with (Pos.compare my mx).
  assert (P2 : forall d, 0 < d -> 2 <= 2 ^ d).
  { intros d Hd. change 2 with (2 ^ 1) at 1. apply Z.pow_le_mono_r; lia. }
  destruct (Z.compare_spec ey ex) as [E|E|E].
  - subst ey. rewrite Z.min_id, Z.sub_diag, !Z.mul_1_r.
    destruct (Pos.compare_spec my mx) as [F|F|F];
      destruct sx, sy; cbn [cond_Zopp CompOpp]; symmetry;
      (apply Z.leb_le || apply Z.leb_gt); lia.
  - replace (Z.min ex ey) with ey by lia. rewrite Z.sub_diag, Z.mul_1_r.
    pose proof (P2 (ex - ey) ltac:(lia)) as H2.
    specialize (Hlx ltac:(lia)).
    assert (Z.pos my < Z.pos mx * 2 ^ (ex - ey)) by nia.
    destruct sx, sy; cbn [cond_Zopp]; symmetry;
      (apply Z.leb_le || apply Z.leb_gt); lia.
  - replace (Z.min ex ey) with ex by lia. rewrite Z.sub_diag, Z.mul_1_r.
    pose proof (P2 (ey - ex) ltac:(lia)) as H2.
    specialize (Hly ltac:(lia)).
    assert (Z.pos mx < Z.pos my * 2 ^ (ey - ex)) by nia.
    destruct sx, sy; cbn [cond_Zopp]; symmetry;
      (apply Z.leb_le || apply Z.leb_gt); lia.
Qed.

Lemma SFleb_zero_normalize (z e : Z) :
  -1074 <= e ->
  SFleb (S754_zero false) (binary_normalize prec emax z e false) = (0 <=? z).
Proof.
  intros He. destruct z as [|p|p]; cbn [binary_normalize].
  - reflexivity.
  - unfold binary_round. destruct (shl_align p e _) as [mz ez].
    destruct (binary_round_aux_cases false (Z.pos mz) ez loc_Exact)
      as [E|[E|[E|(m' & e' & E)]]]; cbv zeta in E; rewrite E; try reflexivity.
    exfalso. revert E. apply binary_round_aux_not_nan. lia.
  - pose proof (binary_round_nonzero true true p e He) as Hz.
    unfold binary_round in *. destruct (shl_align p e _) as [mz ez].
    destruct (binary_round_aux_cases true (Z.pos mz) ez loc_Exact)
      as [E|[E|[E|(m' & e' & E)]]]; cbv zeta in E; rewrite E in *;
      reflexivity || congruence.
Qed.

(** For finite [x] and [y], [0 <= x - y] exactly when [y <= x]: a
    difference of two distinct numbers is never rounded to zero. *)
Lemma SFsub_sign (x y : spec_float) :
  valid_binary x = true -> valid_binary y = true ->
  B64.SFfin x = true -> B64.SFfin y = true ->
  SFleb (S754_zero false) (SF64sub x y) = SFleb y x.
Proof.
  destruct x as [sx|sx| |sx mx ex], y as [sy|sy| |sy my ey];
    try discriminate; intros Vx Vy _ _; cbn [SpecFloat.valid_binary] in *.
  - now destruct sx, sy.
  - now destruct sy.
  - now destruct sx.
  - unfold SF64sub, SFsub. cbv zeta.
    destruct (bounded_facts _ _ Vx) as (Hex & _).
    destruct (bounded_facts _ _ Vy) as (Hey & _).
    rewrite SFleb_zero_normalize by lia.
    symmetry. now apply SFleb_aligned.
Qed.

Lemma sub_sign (a b : float) :
  B64.isFinite a = true -> B64.isFinite b = true ->
  PrimFloat.leb 0 (a - b) = PrimFloat.leb b a.
Proof.
  rewrite !isFinite_spec. intros Ha Hb.
  rewrite !FloatAxioms.leb_spec, sub_spec.
  now apply SFsub_sign; auto using Prim2SF_valid.
Qed.

End SignOfDifference.

(** X10: The net is shown as a gain exactly when the total saving covers the
    subscription, as long as both are finite. *)
Theorem netIsGain_break_even (p : ROIParams float) :
  B64.isFinite (computeROI p).(euroTotal) = true ->
  B64.isFinite p.(haasPrice) = true ->
  netIsGain (computeROI p)
  = PrimFloat.leb p.(haasPrice) (computeROI p).(euroTotal).
Proof. intros Ht Hh. now apply sub_sign. Qed.

Lemma netIsGain_break_even_witness :
  let p := baselineParams (num := float) in
  netIsGain (computeROI p)
  = PrimFloat.leb p.(haasPrice) (computeROI p).(euroTotal).
Proof.
  exact (netIsGain_break_even baselineParams eq_refl eq_refl).
Defined.

(** Finiteness is needed: when the saving overflows and the subscription is
    infinite too, the net is NaN and is shown as a loss. *)
Lemma netIsGain_at_infinity :
  let p := with_haasPrice infinity
             (with_wastePerStopM 1e308%float baselineParams) in
  isInfinite (computeROI p).(euroTotal) = true /\
  PrimFloat.leb p.(haasPrice) (computeROI p).(euroTotal) = true /\
  B64.isNaN (computeROI p).(euroNet) = true /\
  netIsGain (computeROI p) = false.
Proof. repeat split. Qed.

(** ** The calculator shell *)

Section ShellProperties.
Context {num : Type} {A : Arith num} {P : Platform num}.

(** X11: Reset, from any state of the page, gives the engine the very parameters
    the self-test panel uses, which are those of the first render too: the
    page then shows the baseline figures. *)
Theorem reset_gives_baseline (s : State num) :
  params (resetToDefaults s) = baselineParams /\
  params initialState = baselineParams /\
  computeROI (params (resetToDefaults s)) = computeROI baselineParams.
Proof.
  assert (E : params (resetToDefaults s) = baselineParams)
    by (destruct s; reflexivity).
  repeat split; [exact E|now rewrite E].
Qed.

(** X12: Reset restores the eleven numbers and leaves the substrate selection
    alone: the state after it is the initial one exactly when PETG is the
    selected substrate. *)
Theorem reset_keeps_substrate (s : State num) :
  (resetToDefaults s).(st_substrate) = s.(st_substrate) /\
  (resetToDefaults s).(st_substratePrice) = substrateDefault PETG /\
  (resetToDefaults s = initialState <-> s.(st_substrate) = PETG).
Proof.
  destruct s as [a b c d e f g h i j k l]. cbn. repeat split.
  - intros E. now injection E.
  - intros ->. reflexivity.
Qed.

(** X13: No handler toggles or accumulates: an event repeated at once changes
    nothing more. *)
Theorem handle_idempotent (s : State num) (ev : Event num) :
  handle (handle s ev) ev = handle s ev.
Proof.
  destruct s as [a b c d e f g h i j k l].
  destruct ev as [v|v|n|v|v|v|v|v|v|x|v|c'| | |]; try reflexivity.
  cbn. unfold Segmented_click, shiftOptions.
  destruct n as [|[|[|n]]]; cbn; try reflexivity.
  now destruct n.
Qed.

(** X14: An emptied number field is read as [0]: clearing it and typing 0 into
    it lead to the same state. *)
Theorem empty_field_is_zero (s : State num) :
  handle s (JobsPerShiftInput "") = handle s (JobsPerShiftInput "0") /\
  handle s (DaysPerYearInput "") = handle s (DaysPerYearInput "0") /\
  handle s (StopsPerJobInput "") = handle s (StopsPerJobInput "0") /\
  handle s (WastePerStopInput "") = handle s (WastePerStopInput "0") /\
  handle s (SubstratePriceInput "") = handle s (SubstratePriceInput "0").
Proof. repeat split. Qed.

Lemma handle_invariant (s : State num) (ev : Event num) :
  s.(st_haasPrice) = lit 20000 /\ In s.(st_shiftsPerDay) shiftOptions ->
  (handle s ev).(st_haasPrice) = lit 20000 /\
  In (handle s ev).(st_shiftsPerDay) shiftOptions.
Proof.
  destruct s as [a b c d e f g h i j k l]. cbn [st_haasPrice st_shiftsPerDay].
  intros [Hh Hs].
  destruct ev as [v|v|n|v|v|v|v|v|v|x|v|c'| | |]; cbn;
    try (split; assumption).
  - unfold Segmented_click, shiftOptions.
    destruct n as [|[|[|n]]]; cbn; auto.
    destruct n; cbn; auto.
  - split; [reflexivity|]. unfold shiftOptions. cbn. auto.
Qed.

Lemma run_app (evs : list (Event num)) (ev : Event num) :
  run (evs ++ [ev]) = handle (run evs) ev.
Proof. unfold run. now rewrite fold_left_app. Qed.

Lemma run_invariant (evs : list (Event num)) :
  (run evs).(st_haasPrice) = lit 20000 /\
  In (run evs).(st_shiftsPerDay) shiftOptions.
Proof.
  induction evs as [|ev evs IH] using rev_ind.
  - split; [reflexivity|]. cbn. auto.
  - rewrite run_app. now apply handle_invariant.
Qed.

(** X15: Three things hold of the page whatever the user does: the subscription
    price is 20000, the engine is given 8 hours per shift, and the shifts
    per day are one of the three segments. *)
Theorem shell_invariant (evs : list (Event num)) :
  (run evs).(st_haasPrice) = lit 20000 /\
  (params (run evs)).(hoursPerShift) = lit 8 /\
  In (run evs).(st_shiftsPerDay) [lit 1; lit 2; lit 3].
Proof.
  destruct (run_invariant evs) as [Hh Hs]. repeat split; assumption.
Qed.

End ShellProperties.

(** X16: The segments 1, 2 and 3 are distinct numbers, so in every state the user
    can reach exactly one segment is highlighted. *)
Theorem one_segment_active {P : Platform float} (evs : list (Event float)) :
  count_occ bool_dec
    (Segmented_active (run evs).(st_shiftsPerDay) shiftOptions) true = 1.
Proof.
  destruct (run_invariant evs) as [_ Hs].
  cbn [In shiftOptions] in Hs.
  destruct Hs as [<-|[<-|[<-|[]]]]; reflexivity.
Qed.

(** X17: After a reset the price is that of PETG: when another substrate is the
    selected one, the price shown is not its default. *)
Theorem reset_price_is_not_of_other_substrate (s : State float) :
  s.(st_substrate) <> PETG ->
  PrimFloat.eqb (resetToDefaults s).(st_substratePrice)
                (substrateDefault (resetToDefaults s).(st_substrate))
  = false.
Proof.
  destruct s as [a b c d e f g h i j k l]. cbn.
  destruct k; intros Hk; [congruence|reflexivity..].
Qed.

Lemma reset_price_is_not_of_other_substrate_witness :
  let s := setSubstratePrice (substrateDefault PVC)
             (setSubstrate PVC (initialState (num := float))) in
  PrimFloat.eqb (resetToDefaults s).(st_substratePrice)
                (substrateDefault (resetToDefaults s).(st_substrate))
  = false.
Proof.
  apply (reset_price_is_not_of_other_substrate
           (setSubstratePrice (substrateDefault PVC)
              (setSubstrate PVC (initialState (num := float))))).
  discriminate.
Defined.

(** ** The PDF export *)

Section ExportProperties.
Context {num : Type} {A : Arith num} {P : Platform num} {R : Rounding num}.






End ExportProperties.

(** ** A press that is never up *)

Lemma SFadd_zero_r_eqb (x z : spec_float) :
  B64.SFzero z = true -> x <> S754_nan -> SFeqb (SF64add x z) x = true.
Proof.
  destruct z as [sz|sz| |sz mz ez]; try discriminate. intros _ Hx.
  destruct x as [s|s| |s m e]; cbn [SF64add SFadd].
  - now destruct s, sz.
  - now apply SFeqb_refl.
  - congruence.
  - now apply SFeqb_refl.
Qed.

Lemma add_zero_r_eqb (x z : float) :
  B64.isZero z = true -> B64.isNaN x = false ->
  PrimFloat.eqb (x + z)%float x = true.
Proof.
  rewrite isZero_spec, isNaN_spec, FloatAxioms.eqb_spec, add_spec.
  intros Hz Hx. apply SFadd_zero_r_eqb; [exact Hz|].
  intros E. now rewrite E in Hx.
Qed.

(** X21: With an uptime of zero, and the speed, the minutes per day, the days and
    the price finite, nothing is printed, the 3 mm gain is zero, and the
    total saving is the makeready saving (unless that one is NaN). *)
Theorem never_up (p : ROIParams float) :
  B64.isZero p.(uptimePercent) = true ->
  B64.isFinite p.(speedMPerMin) = true ->
  B64.isFinite (minutesPerDay p) = true ->
  B64.isFinite p.(daysPerYear) = true ->
  B64.isFinite p.(substratePrice) = true ->
  let r := computeROI p in
  B64.isZero (printedLengthPerDay p) = true /\
  B64.isZero r.(printedLengthPerYear) = true /\
  B64.isZero r.(m2ThreeMmPerYear) = true /\
  B64.isZero r.(euroThreeMm) = true /\
  (B64.isNaN r.(euroCalage) = false ->
   PrimFloat.eqb r.(euroTotal) r.(euroCalage) = true).
Proof.
  intros Hu Hv Hm Hd Hp r.
  assert (Hl : B64.isZero (printedLengthPerDay p) = true).
  { unfold printedLengthPerDay. cbn [mul div float_Arith].
    apply isZero_mul_l; [|exact Hm].
    apply isZero_mul_r; [exact Hv|]. now apply isZero_div_100. }
  assert (Hy : B64.isZero r.(printedLengthPerYear) = true)
    by (now apply isZero_mul_l).
  assert (H3 : B64.isZero r.(m2ThreeMmPerYear) = true)
    by (now apply isZero_lit_0_003_mul).
  assert (He : B64.isZero r.(euroThreeMm) = true)
    by (now apply isZero_mul_l).
  repeat split; try assumption.
  intros Hc. now apply add_zero_r_eqb.
Qed.

Lemma never_up_witness :
  let p := {| webWidth := 0.33%float; jobsPerShift := 6%float;
              shiftsPerDay := 2%float; daysPerYear := 250%float;
              stopsPerJobBaseline := 6%float; reductionPercent := 50%float;
              wastePerStopM := 100%float; speedMPerMin := 165%float;
              uptimePercent := 0%float; hoursPerShift := 8%float;
              substratePrice := 0.6%float; haasPrice := 20000%float |} in
  let r := computeROI p in
  B64.isZero (printedLengthPerDay p) = true /\
  B64.isZero r.(printedLengthPerYear) = true /\
  B64.isZero r.(m2ThreeMmPerYear) = true /\
  B64.isZero r.(euroThreeMm) = true /\
  (B64.isNaN r.(euroCalage) = false ->
   PrimFloat.eqb r.(euroTotal) r.(euroCalage) = true).
Proof.
  intros p.
  exact (never_up p eq_refl eq_refl eq_refl eq_refl eq_refl).
Defined.
